(** * depfind: dependency-graph cache and file-ownership resolution

    A shallow embedding of the Go package [depfind] (godepfind.go, cache.go,
    validation.go) and the properties of its cache life cycle and of
    [ThisFileIsMine].

    Conventions of the embedding.
    - A Go [string] is a [string] (a sequence of bytes).
    - A Go [map[string]T] that is only read and written by key is a
      [gmap string T]; a map the code ranges over ([packages],
      [packageCache]) is an association list with unique keys.  Go does
      not specify the order in which a [range] statement visits the entries
      of a map: the order of each such loop is the runtime's choice, a
      field of the [World], and the theorems hold for every choice.
    - A method with a pointer receiver [g *GoDepFind] is a function from the
      receiver's state to a result and the state it leaves behind; the state
      survives an error return, as it does in Go.
    - The operating system, the [go] tool chain and the Go standard library
      ([os], [path/filepath], [go/build], [go/parser], [os/exec]) are
      outside the package: they are the fields of a [World]. *)

From Stdlib Require Import Ascii String.
From stdpp Require Import base gmap sets list strings.

Local Open Scope list_scope.
Local Open Scope nat_scope.

(* stdpp's solvers clear hypotheses they introduced themselves. *)
Local Set Warnings "-clear-no-such-hyp".

(** ** The functions of Go's [strings] package the code calls *)

Module Strings.

(** [strings.HasPrefix(s, prefix)] *)
Definition HasPrefix (s prefix : string) : bool := String.prefix prefix s.

(** [strings.TrimPrefix(s, prefix)] *)
Definition TrimPrefix (s prefix : string) : string :=
  if String.prefix prefix s
  then String.substring (String.length prefix)
                        (String.length s - String.length prefix) s
  else s.

(** [strings.Index(s, substr)], [None] standing for -1 *)
Definition Index (s substr : string) : option nat := String.index 0 substr s.

(** [strings.Contains(s, substr)] *)
Definition Contains (s substr : string) : bool :=
  match Index s substr with Some _ => true | None => false end.

(** [strings.LastIndex(s, substr)], [None] standing for -1 *)
Fixpoint LastIndex (s substr : string) : option nat :=
  match s with
  | EmptyString => if String.prefix substr EmptyString then Some 0 else None
  | String _ s' =>
      match LastIndex s' substr with
      | Some n => Some (S n)
      | None => if String.prefix substr s then Some 0 else None
      end
  end.

(** [strings.Split(s, sep)] for a separator of one byte *)
Fixpoint SplitByte (s : string) (sep : ascii) : list string :=
  match s with
  | EmptyString => [EmptyString]
  | String a s' =>
      if Ascii.eqb a sep then EmptyString :: SplitByte s' sep
      else match SplitByte s' sep with
           | h :: t => String a h :: t
           | [] => [String a EmptyString]
           end
  end.

(** White space as [strings.TrimSpace] sees it: the characters for which
    [unicode.IsSpace] holds, in their UTF-8 encoding.  In one byte: tab,
    line feed, vertical tab, form feed, carriage return, space. *)
Definition isSpace (c : ascii) : bool :=
  let n := nat_of_ascii c in
  (Nat.leb 9 n && Nat.leb n 13) || Nat.eqb n 32.

(** In two bytes: U+0085 (C2 85) and U+00A0 (C2 A0) *)
Definition isSpace2 (a b : ascii) : bool :=
  let a := nat_of_ascii a in
  let b := nat_of_ascii b in
  Nat.eqb a 194 && (Nat.eqb b 133 || Nat.eqb b 160).

(** In three bytes: U+1680 (E1 9A 80), U+2000 to U+200A (E2 80 80 to
    E2 80 8A), U+2028, U+2029 and U+202F (E2 80 A8, A9, AF), U+205F
    (E2 81 9F) and U+3000 (E3 80 80) *)
Definition isSpace3 (a b c : ascii) : bool :=
  let a := nat_of_ascii a in
  let b := nat_of_ascii b in
  let c := nat_of_ascii c in
  (Nat.eqb a 225 && Nat.eqb b 154 && Nat.eqb c 128)
  || (Nat.eqb a 226 && Nat.eqb b 128
      && ((Nat.leb 128 c && Nat.leb c 138)
          || Nat.eqb c 168 || Nat.eqb c 169 || Nat.eqb c 175))
  || (Nat.eqb a 226 && Nat.eqb b 129 && Nat.eqb c 159)
  || (Nat.eqb a 227 && Nat.eqb b 128 && Nat.eqb c 128).

(** [strings.TrimLeftFunc(s, unicode.IsSpace)]: the white space at the
    start of [s] goes; a byte that starts no white-space character stops
    the scan. *)
Fixpoint trimLeft (s : string) : string :=
  match s with
  | EmptyString => EmptyString
  | String a s1 =>
      if isSpace a then trimLeft s1
      else match s1 with
           | EmptyString => s
           | String b s2 =>
               if isSpace2 a b then trimLeft s2
               else match s2 with
                    | EmptyString => s
                    | String c s3 =>
                        if isSpace3 a b c then trimLeft s3 else s
                    end
           end
  end.

(** The same scan from the end of the string, on the reversed string: the
    bytes of a character come last byte first. *)
Fixpoint trimReversed (s : string) : string :=
  match s with
  | EmptyString => EmptyString
  | String a s1 =>
      if isSpace a then trimReversed s1
      else match s1 with
           | EmptyString => s
           | String b s2 =>
               if isSpace2 b a then trimReversed s2
               else match s2 with
                    | EmptyString => s
                    | String c s3 =>
                        if isSpace3 c b a then trimReversed s3 else s
                    end
           end
  end.

(** [strings.TrimRightFunc(s, unicode.IsSpace)] *)
Definition trimRight (s : string) : string :=
  String.rev (trimReversed (String.rev s)).

(** [strings.TrimSpace(s)] *)
Definition TrimSpace (s : string) : string := trimRight (trimLeft s).

(** [s[lo:hi]] *)
Definition slice (s : string) (lo hi : nat) : string :=
  String.substring lo (hi - lo) s.

End Strings.

(** ** Results and errors *)

(** A Go [error] is its message. *)
Definition error := string.

(** A Go result pair [(T, error)]: [Err e] is a return with [err != nil]
    (the value returned with it is the zero value at every such return of
    this package), [Ok v] a return with a nil error. *)
Inductive result (A : Type) : Type :=
| Ok (v : A)
| Err (e : error).
Arguments Ok {A} v.
Arguments Err {A} e.


(** [fmt.Errorf(prefix + "%w", err)] *)
Definition wrap (prefix : string) (e : error) : error := prefix +:+ e.

(** ** [go/build.Package], the fields the code reads *)

Record Package : Type := mkPackage {
  Name : string;
  Dir : string;
  Imports : list string;
  TestImports : list string;
  XTestImports : list string;
  GoFiles : list string;
  TestGoFiles : list string;
  XTestGoFiles : list string
}.

(** ** The world outside the package *)

(** What [os.Stat] returns: file information (the size is all the code
    reads), an error for which [os.IsNotExist] holds, or another error. *)
Inductive statResult : Type :=
| StatInfo (size : N)
| StatNotExist (e : error)
| StatError (e : error).

(** The [range] statements over a map of packages: the three loops of
    [rebuildCache] (dependency graph, file indices, main packages) and the
    two of [findPackageContainingFileByPath] (over [packageCache] and over
    the packages of its own scan). *)
Inductive rangeLoop : Type :=
| GraphLoop
| IndexLoop
| MainLoop
| CacheLoop
| ScanLoop.

Record World : Type := mkWorld {
  (** [os.Getwd] *)
  Getwd : result string;
  (** [path/filepath]; [Join] is the call with two elements *)
  IsAbs : string → bool;
  Join : string → string → string;
  Abs : string → result string;
  Rel : string → string → result string;
  Base : string → string;
  DirOf : string → string;
  Ext : string → string;
  Clean : string → string;
  (** [os.Stat], [os.ReadFile] *)
  Stat : string → statResult;
  ReadFile : string → result string;
  (** [parser.ParseFile(fset, path, nil, parser.ParseComments)]: the error
      it returns, if any *)
  ParseFile : string → option error;
  (** [exec.Command("go", "list", pattern)] run in a directory: the fields
      ([strings.Fields]) of its standard output and its error, if any *)
  GoList : string → string → list string * option error;
  (** [build.ImportDir(dir, 0)] and [build.Import(path, srcDir, 0)] *)
  ImportDir : string → result Package;
  Import : string → string → result Package;
  (** the Go runtime: the order in which a [range] statement visits the
      entries of a map, given for each loop as a rank of the keys (lower
      ranks first).  The ranks are those of one call: a loop that runs
      twice in it follows them both times. *)
  RangeRank : rangeLoop → string → nat
}.

(** ** The finder's state (godepfind.go) *)

Record GoDepFind : Type := mkGoDepFind {
  rootDir : string;
  testImports : bool;
  cachedModule : bool;
  packageCache : list (string * Package);
  dependencyGraph : gmap string (list string);
  reverseDeps : gmap string (list string);
  filePathToPackage : gmap string string;
  fileToPackages : gmap string (list string);
  mainPackages : list string
}.

(** [New(rootDir)] *)
Definition New (root : string) : GoDepFind :=
  {| rootDir := if decide (root = "") then "." else root;
     testImports := false;
     cachedModule := false;
     packageCache := [];
     dependencyGraph := ∅;
     reverseDeps := ∅;
     filePathToPackage := ∅;
     fileToPackages := ∅;
     mainPackages := [] |}.


(** ** Methods as state transformers

    A method of [*GoDepFind] that returns [(T, error)] is an [M T]: from the
    receiver's state to the result and the state the call leaves. *)

Definition M (A : Type) : Type := GoDepFind → result A * GoDepFind.

Definition ret {A} (v : A) : M A := λ g, (Ok v, g).
Definition fail {A} (e : error) : M A := λ g, (Err e, g).
(** [v, err := c; if err != nil { return err }; k(v)] *)
Definition bind {A B} (c : M A) (k : A → M B) : M B :=
  λ g, match c g with
       | (Ok v, g') => k v g'
       | (Err e, g') => (Err e, g')
       end.
Definition get : M GoDepFind := λ g, (Ok g, g).
Definition put (g' : GoDepFind) : M unit := λ _, (Ok tt, g').
(** [if err := c; err != nil { return fmt.Errorf(prefix + "%w", err) }] *)
Definition wrapErr {A} (prefix : string) (c : M A) : M A :=
  λ g, match c g with
       | (Ok v, g') => (Ok v, g')
       | (Err e, g') => (Err (wrap prefix e), g')
       end.

Notation "'let*' x ':=' c 'in' k" := (bind c (λ x, k))
  (at level 10, x name, c at level 100, k at level 200).
Notation "'run' c 'in' k" := (bind c (λ _, k))
  (at level 10, c at level 100, k at level 200).

(** ** Maps the code ranges over *)

Section AssocList.
Context {A : Type}.

(** [m[k]] with its presence flag *)
Fixpoint alookup (k : string) (m : list (string * A)) : option A :=
  match m with
  | [] => None
  | (k', v) :: m' => if decide (k' = k) then Some v else alookup k m'
  end.

(** [m[k] = v] *)
Fixpoint ainsert (k : string) (v : A) (m : list (string * A))
  : list (string * A) :=
  match m with
  | [] => [(k, v)]
  | (k', v') :: m' =>
      if decide (k' = k) then (k, v) :: m' else (k', v') :: ainsert k v m'
  end.

(** [delete(m, k)] *)
Fixpoint adelete (k : string) (m : list (string * A)) : list (string * A) :=
  match m with
  | [] => []
  | (k', v) :: m' =>
      if decide (k' = k) then adelete k m' else (k', v) :: adelete k m'
  end.

(** The place of an entry among entries already in the order of their
    ranks: before the first entry of the same or a higher rank *)
Fixpoint insertRanked (rank : string → nat) (entry : string * A)
    (m : list (string * A)) : list (string * A) :=
  match m with
  | [] => [entry]
  | entry' :: m' =>
      if Nat.leb (rank (entry.1)) (rank (entry'.1)) then entry :: m
      else entry' :: insertRanked rank entry m'
  end.

(** [for k, v := range m]: the entries of [m] in the order in which the
    loop [loop] visits them, which is any order the runtime likes *)
Definition rangeOver (w : World) (loop : rangeLoop) (m : list (string * A))
  : list (string * A) :=
  foldr (insertRanked (RangeRank w loop)) [] m.
End AssocList.

(** ** Helper functions (cache.go) *)

(** [contains(slice, item)] *)
Fixpoint contains (slice : list string) (item : string) : bool :=
  match slice with
  | [] => false
  | s :: rest => if decide (s = item) then true else contains rest item
  end.

(** [removeString(slice, item)]: the slice without the first occurrence of
    [item] *)
Fixpoint removeString (slice : list string) (item : string) : list string :=
  match slice with
  | [] => []
  | s :: rest => if decide (s = item) then rest else s :: removeString rest item
  end.

(** [m[k]] for a map of slices: the nil slice when the key is absent *)
Definition slicesAt (m : gmap string (list string)) (k : string)
  : list string := default [] (m !! k).

(** [m[k] = append(m[k], v)] *)
Definition appendAt (m : gmap string (list string)) (k v : string)
  : gmap string (list string) := <[k := slicesAt m k ++ [v]]> m.

(** ** Listing and importing packages (godepfind.go) *)

Definition statOk (w : World) (path : string) : bool :=
  match Stat w path with StatInfo _ => true | _ => false end.

(** [listPackages(path)]: the packages [go list] printed are returned even
    when the command failed; the error is returned only with no package. *)
Definition listPackages (w : World) (path : string) : M (list string) :=
  λ g, let '(packages, err) := GoList w (rootDir g) path in
       if Nat.ltb 0 (length packages) then (Ok packages, g)
       else match err with
            | Some e => (Err e, g)
            | None => (Ok packages, g)
            end.

(** [os.Stat(fullPath)] then [build.ImportDir(fullPath, 0)], both without
    error *)
Definition tryImportDir (w : World) (fullPath : string) : option Package :=
  if statOk w fullPath
  then match ImportDir w fullPath with Ok pkg => Some pkg | Err _ => None end
  else None.

(** The body of the loop of [getPackages] for one listed path *)
Definition importListed (w : World) (root path : string) : result Package :=
  let viaModule :=
    if Strings.Contains path "/" then
      let parts := Strings.SplitByte path "/"%char in
      if Nat.leb 2 (length parts)
      then tryImportDir w (Join w root (String.concat "/" (tail parts)))
      else None
    else None in
  match viaModule with
  | Some pkg => Ok pkg
  | None =>
      match tryImportDir w (Join w root path) with
      | Some pkg => Ok pkg
      | None => Import w path root
      end
  end.

Fixpoint getPackagesFrom (w : World) (root : string) (paths : list string)
    (packages : list (string * Package)) : result (list (string * Package)) :=
  match paths with
  | [] => Ok packages
  | path :: rest =>
      match importListed w root path with
      | Ok pkg => getPackagesFrom w root rest (ainsert path pkg packages)
      | Err e => Err e
      end
  end.

(** [getPackages(paths)] *)
Definition getPackages (w : World) (paths : list string)
  : M (list (string * Package)) :=
  λ g, (getPackagesFrom w (rootDir g) paths [], g).

(** ** Rebuilding the cache (cache.go) *)

(** The inner loops [for _, imp := range imports { reverseDeps[imp] =
    append(reverseDeps[imp], pkgPath) }] *)
Definition addReverseAll (pkgPath : string) (imports : list string)
    (rd : gmap string (list string)) : gmap string (list string) :=
  fold_left (λ rd imp, appendAt rd imp pkgPath) imports rd.

(** Step 3 of [rebuildCache], one iteration of [for pkgPath, pkg := range
    packages] *)
Definition graphStep (ti : bool)
    (acc : gmap string (list string) * gmap string (list string))
    (entry : string * Package)
  : gmap string (list string) * gmap string (list string) :=
  let '(dg, rd) := acc in
  let '(pkgPath, pkg) := entry in
  let dg := <[pkgPath := Imports pkg]> dg in
  let rd := addReverseAll pkgPath (Imports pkg) rd in
  let rd := if ti
            then addReverseAll pkgPath (XTestImports pkg)
                   (addReverseAll pkgPath (TestImports pkg) rd)
            else rd in
  (dg, rd).

(** Step 3 of [rebuildCache]: the two maps start empty and the loop ranges
    over [packages]. *)
Definition buildGraph (w : World) (ti : bool)
    (packages : list (string * Package))
  : gmap string (list string) * gmap string (list string) :=
  fold_left (graphStep ti) (rangeOver w GraphLoop packages) (∅, ∅).

(** The inner loops of step 4: [filePathToPackage[filepath.Join(pkg.Dir,
    file)] = pkgPath] and [fileToPackages[filepath.Base(file)] =
    append(..., pkgPath)] *)
Definition indexFiles (w : World) (pkgPath dir : string) (files : list string)
    (acc : gmap string string * gmap string (list string))
  : gmap string string * gmap string (list string) :=
  fold_left (λ acc file,
               (<[Join w dir file := pkgPath]> (acc.1),
                appendAt (acc.2) (Base w file) pkgPath))
            files acc.

(** Step 4 of [rebuildCache], one iteration *)
Definition indexStep (w : World) (ti : bool)
    (acc : gmap string string * gmap string (list string))
    (entry : string * Package)
  : gmap string string * gmap string (list string) :=
  let '(pkgPath, pkg) := entry in
  let acc := indexFiles w pkgPath (Dir pkg) (GoFiles pkg) acc in
  if ti
  then indexFiles w pkgPath (Dir pkg) (XTestGoFiles pkg)
         (indexFiles w pkgPath (Dir pkg) (TestGoFiles pkg) acc)
  else acc.

(** Step 4 of [rebuildCache]: a second loop that ranges over [packages],
    in an order of its own *)
Definition buildIndex (w : World) (ti : bool)
    (packages : list (string * Package))
  : gmap string string * gmap string (list string) :=
  fold_left (indexStep w ti) (rangeOver w IndexLoop packages) (∅, ∅).

(** Step 5 of [rebuildCache]: a third loop that ranges over [packages] and
    appends the packages named main as it meets them *)
Definition findMains (w : World) (packages : list (string * Package))
  : list string :=
  (filter (λ entry, Name (entry.2) = "main")
          (rangeOver w MainLoop packages)).*1.

(** The state [rebuildCache] leaves after a successful scan *)
Definition rebuiltFrom (w : World) (root : string) (ti : bool)
    (packages : list (string * Package)) : GoDepFind :=
  {| rootDir := root;
     testImports := ti;
     cachedModule := true;
     packageCache := packages;
     dependencyGraph := (buildGraph w ti packages).1;
     reverseDeps := (buildGraph w ti packages).2;
     filePathToPackage := (buildIndex w ti packages).1;
     fileToPackages := (buildIndex w ti packages).2;
     mainPackages := findMains w packages |}.

(** [rebuildCache()] *)
Definition rebuildCache (w : World) : M unit :=
  let* allPaths := wrapErr "failed to list packages: "
                           (listPackages w "./...") in
  let* packages := wrapErr "failed to get packages: "
                           (getPackages w allPaths) in
  let* g := get in
  put (rebuiltFrom w (rootDir g) (testImports g) packages).

(** [ensureCacheInitialized()] *)
Definition ensureCacheInitialized (w : World) : M unit :=
  λ g, if cachedModule g then (Ok tt, g) else rebuildCache w g.

(** ** Field updates of the receiver *)

Definition withPackageCache (pc : list (string * Package)) (g : GoDepFind)
  : GoDepFind :=
  {| rootDir := rootDir g; testImports := testImports g;
     cachedModule := cachedModule g; packageCache := pc;
     dependencyGraph := dependencyGraph g; reverseDeps := reverseDeps g;
     filePathToPackage := filePathToPackage g;
     fileToPackages := fileToPackages g; mainPackages := mainPackages g |}.

Definition withDependencyGraph (dg : gmap string (list string))
    (g : GoDepFind) : GoDepFind :=
  {| rootDir := rootDir g; testImports := testImports g;
     cachedModule := cachedModule g; packageCache := packageCache g;
     dependencyGraph := dg; reverseDeps := reverseDeps g;
     filePathToPackage := filePathToPackage g;
     fileToPackages := fileToPackages g; mainPackages := mainPackages g |}.

Definition withReverseDeps (rd : gmap string (list string))
    (g : GoDepFind) : GoDepFind :=
  {| rootDir := rootDir g; testImports := testImports g;
     cachedModule := cachedModule g; packageCache := packageCache g;
     dependencyGraph := dependencyGraph g; reverseDeps := rd;
     filePathToPackage := filePathToPackage g;
     fileToPackages := fileToPackages g; mainPackages := mainPackages g |}.

Definition withFilePathToPackage (fp : gmap string string)
    (g : GoDepFind) : GoDepFind :=
  {| rootDir := rootDir g; testImports := testImports g;
     cachedModule := cachedModule g; packageCache := packageCache g;
     dependencyGraph := dependencyGraph g; reverseDeps := reverseDeps g;
     filePathToPackage := fp;
     fileToPackages := fileToPackages g; mainPackages := mainPackages g |}.

Definition withFileToPackages (ftp : gmap string (list string))
    (g : GoDepFind) : GoDepFind :=
  {| rootDir := rootDir g; testImports := testImports g;
     cachedModule := cachedModule g; packageCache := packageCache g;
     dependencyGraph := dependencyGraph g; reverseDeps := reverseDeps g;
     filePathToPackage := filePathToPackage g;
     fileToPackages := ftp; mainPackages := mainPackages g |}.

(** ** Finding the package of a file (godepfind.go) *)

(** One of the loops [for _, file := range files] of
    [findPackageContainingFileByPath]: some file of the package, made
    absolute, is [absPath]. *)
Definition fileAmong (w : World) (dir : string) (files : list string)
    (absPath : string) : bool :=
  existsb (λ file,
             let candidate := if IsAbs w file then file else Join w dir file in
             match Abs w candidate with
             | Ok candAbs => bool_decide (candAbs = absPath)
             | Err _ => false
             end) files.

Definition packageHasFile (w : World) (ti : bool) (pkg : Package)
    (absPath : string) : bool :=
  fileAmong w (Dir pkg) (GoFiles pkg) absPath
  || (ti && (fileAmong w (Dir pkg) (TestGoFiles pkg) absPath
             || fileAmong w (Dir pkg) (XTestGoFiles pkg) absPath)).

(** The loop [for pkgPath, pkg := range packages] that returns the first
    package with the file, in the order in which the loop [loop] visits the
    packages *)
Definition ownerIn (w : World) (loop : rangeLoop) (ti : bool)
    (packages : list (string * Package)) (absPath : string) : option string :=
  fst <$> List.find (λ entry, packageHasFile w ti (entry.2) absPath)
                    (rangeOver w loop packages).

(** [findPackageContainingFileByPath(filePath)]: the cached packages first,
    then a scan of all packages (which looks at [GoFiles] only). *)
Definition findPackageContainingFileByPath (w : World) (filePath : string)
  : M string :=
  run ensureCacheInitialized w in
  λ g, match Abs w filePath with
       | Err e => (Err e, g)
       | Ok absPath =>
           match ownerIn w CacheLoop (testImports g) (packageCache g) absPath
           with
           | Some pkgPath => (Ok pkgPath, g)
           | None =>
               (let* allPaths := listPackages w "./..." in
                let* packages := getPackages w allPaths in
                ret (default "" (ownerIn w ScanLoop false packages absPath))) g
           end
       end.

(** ** Cache maintenance (cache.go) *)

(** [invalidatePackageCache(filePath)]: the package of the file leaves
    [packageCache] and [dependencyGraph]; [reverseDeps] and the dependency
    lists of the other packages are left as they are. *)
Definition invalidatePackageCache (w : World) (filePath : string) : M unit :=
  λ g, match findPackageContainingFileByPath w filePath g with
       | (Err _, g') => (Ok tt, g')
       | (Ok pkg, g') =>
           if decide (pkg = "") then (Ok tt, g')
           else (Ok tt,
                 withDependencyGraph (delete pkg (dependencyGraph g'))
                   (withPackageCache (adelete pkg (packageCache g')) g'))
       end.

(** [invalidatePackageCacheOnly(filePath)] *)
Definition invalidatePackageCacheOnly (w : World) (filePath : string)
  : M unit :=
  λ g, match findPackageContainingFileByPath w filePath g with
       | (Err _, g') => (Ok tt, g')
       | (Ok pkg, g') =>
           if decide (pkg = "") then (Ok tt, g')
           else (Ok tt, withPackageCache (adelete pkg (packageCache g')) g')
       end.

(** [importPackageFromDir(dir)] *)
Definition importPackageFromDir (w : World) (dir : string) : result Package :=
  ImportDir w dir.

(** [addReverseDep(target, dependent)] *)
Definition addReverseDep (rd : gmap string (list string))
    (target dependent : string) : gmap string (list string) :=
  if contains (slicesAt rd target) dependent then rd
  else <[target := slicesAt rd target ++ [dependent]]> rd.

(** [removeReverseDep(target, dependent)] *)
Definition removeReverseDep (rd : gmap string (list string))
    (target dependent : string) : gmap string (list string) :=
  if contains (slicesAt rd target) dependent
  then <[target := removeString (slicesAt rd target) dependent]> rd
  else rd.

(** [handleFileCreate(filePath)] *)
Definition handleFileCreate (w : World) (filePath : string) : M unit :=
  let* pkg := findPackageContainingFileByPath w filePath in
  if decide (pkg = "") then ret tt
  else
    let* g := get in
    let fp := match Abs w filePath with
              | Ok absPath => <[absPath := pkg]> (filePathToPackage g)
              | Err _ => filePathToPackage g
              end in
    let fileName := Base w filePath in
    let ftp := if contains (slicesAt (fileToPackages g) fileName) pkg
               then fileToPackages g
               else appendAt (fileToPackages g) fileName pkg in
    run put (withFileToPackages ftp (withFilePathToPackage fp g)) in
    invalidatePackageCache w filePath.

(** [handleFileRemove(filePath)] *)
Definition handleFileRemove (w : World) (filePath : string) : M unit :=
  λ g,
    let g1 :=
      if decide (filePath = "") then g
      else match Abs w filePath with
           | Ok absPath =>
               withFilePathToPackage (delete absPath (filePathToPackage g)) g
           | Err _ => g
           end in
    let g2 :=
      if decide (filePath = "") then g1
      else
        let '(r, g') := findPackageContainingFileByPath w filePath g1 in
        let pkg := match r with Ok pkg => pkg | Err _ => "" end in
        if decide (pkg = "") then g'
        else
          let fileName := Base w filePath in
          withFileToPackages
            (<[fileName := removeString (slicesAt (fileToPackages g') fileName)
                                        pkg]> (fileToPackages g')) g' in
    invalidatePackageCache w filePath g2.

(** Step 5 of [refreshPackageCache]: the imports of the re-imported
    package, with the test imports when they are enabled *)
Definition declaredImports (ti : bool) (pkg : Package) : list string :=
  if ti then Imports pkg ++ TestImports pkg ++ XTestImports pkg
  else Imports pkg.

(** Step 6 of [refreshPackageCache], first loop: the package leaves the
    reverse dependencies of the imports it no longer has. *)
Definition dropReverseEdges (newImports : list string) (pkgPath : string)
    (oldImports : list string) (rd : gmap string (list string))
  : gmap string (list string) :=
  fold_left (λ rd imp,
               if contains newImports imp then rd
               else removeReverseDep rd imp pkgPath)
            oldImports rd.

(** Step 6, second loop: the package joins the reverse dependencies of the
    imports it did not have. *)
Definition addReverseEdges (oldImports : list string) (pkgPath : string)
    (newImports : list string) (rd : gmap string (list string))
  : gmap string (list string) :=
  fold_left (λ rd imp,
               if contains oldImports imp then rd
               else addReverseDep rd imp pkgPath)
            newImports rd.

(** Steps 4 to 6 of [refreshPackageCache]: the finder once the package
    [targetPkgPath] is replaced by [newPkg] *)
Definition refreshed (targetPkgPath : string) (newPkg : Package)
    (g : GoDepFind) : GoDepFind :=
  let oldImports := slicesAt (dependencyGraph g) targetPkgPath in
  let newImports := declaredImports (testImports g) newPkg in
  withReverseDeps
    (addReverseEdges oldImports targetPkgPath newImports
       (dropReverseEdges newImports targetPkgPath oldImports (reverseDeps g)))
    (withDependencyGraph
       (<[targetPkgPath := newImports]> (dependencyGraph g))
       (withPackageCache (ainsert targetPkgPath newPkg (packageCache g)) g)).

(** [refreshPackageCache(filePath)] *)
Definition refreshPackageCache (w : World) (filePath : string) : M unit :=
  let* targetPkgPath := findPackageContainingFileByPath w filePath in
  if decide (targetPkgPath = "") then handleFileCreate w filePath
  else
    let* g := get in
    match alookup targetPkgPath (packageCache g) with
    | None => handleFileCreate w filePath
    | Some pkg =>
        match importPackageFromDir w (Dir pkg) with
        | Err e =>
            fail ("failed to refresh package " +:+ targetPkgPath +:+ ": " +:+ e)
        | Ok newPkg => put (refreshed targetPkgPath newPkg g)
        end
    end.

(** [isSameFile(filePath1, filePath2)] *)
Definition isSameFile (w : World) (g : GoDepFind) (filePath1 filePath2 : string)
  : bool :=
  match Abs w filePath1, Abs w filePath2 with
  | Ok abs1, Ok abs2 =>
      let abs2 :=
        if IsAbs w filePath2 then abs2
        else match Abs w (Join w (rootDir g) filePath2) with
             | Ok abs2FromRoot => abs2FromRoot
             | Err _ => abs2
             end in
      let abs1 :=
        if IsAbs w filePath1 then abs1
        else match Abs w (Join w (rootDir g) filePath1) with
             | Ok abs1FromRoot => abs1FromRoot
             | Err _ => abs1
             end in
      bool_decide (abs1 = abs2)
  | _, _ => bool_decide (filePath1 = filePath2)
  end.

(** [rescanMainPackageDependencies(mainInputFileRelativePath)] *)
Definition rescanMainPackageDependencies (w : World)
    (mainInputFileRelativePath : string) : M unit :=
  rebuildCache w.


(** [updateCacheForFileWithContext(filePath, event, handlerMainFile)] *)
Definition updateCacheForFileWithContext (w : World)
    (filePath event handlerMainFile : string) : M unit :=
  run ensureCacheInitialized w in
  if decide (event = "write") then
    λ g, if negb (bool_decide (handlerMainFile = ""))
            && isSameFile w g filePath handlerMainFile
         then rescanMainPackageDependencies w filePath g
         else refreshPackageCache w filePath g
  else if decide (event = "create") then handleFileCreate w filePath
  else if decide (event = "remove") then handleFileRemove w filePath
  else if decide (event = "rename") then
    run handleFileRemove w filePath in handleFileCreate w filePath
  else ret tt.

(** ** The transitive-import query (cache.go) *)

(** The loop [for _, dep := range deps] of [cachedImports]; [call] is the
    recursive call [g.cachedImports(dep, targetPkg, visited)]. *)
Fixpoint depsLoop
    (call : string → gset string → option (bool * gset string))
    (targetPkg : string) (deps : list string) (visited : gset string)
  : option (bool * gset string) :=
  match deps with
  | [] => Some (false, visited)
  | dep :: rest =>
      if decide (dep = targetPkg) then Some (true, visited)
      else match call dep visited with
           | None => None
           | Some (true, visited') => Some (true, visited')
           | Some (false, visited') => depsLoop call targetPkg rest visited'
           end
  end.

(** [cachedImports(path, targetPkg, visited)].  The map [visited] is
    shared by all calls of one query: the function returns it as it is
    left.  [fuel] bounds the depth of the recursion; [None] is "out of
    fuel". *)
Fixpoint cachedImports (fuel : nat) (dg : gmap string (list string))
    (path targetPkg : string) (visited : gset string)
  : option (bool * gset string) :=
  match fuel with
  | 0 => None
  | S fuel' =>
      if decide (path ∈ visited) then Some (false, visited)
      else
        let visited := {[path]} ∪ visited in
        if decide (path = targetPkg) then Some (true, visited)
        else match dg !! path with
             | Some deps =>
                 depsLoop (λ dep v, cachedImports fuel' dg dep targetPkg v)
                          targetPkg deps visited
             | None => Some (false, visited)
             end
  end.

(** The units a dependency graph mentions *)
Definition graphNodes (dg : gmap string (list string)) : gset string :=
  dom dg ∪ ⋃ ((λ entry, list_to_set (entry.2)) <$> map_to_list dg).

(** A recursion depth no query on [dg] reaches *)
Definition queryFuel (dg : gmap string (list string)) : nat :=
  S (S (size (graphNodes dg))).

(** [cachedMainImportsPackage(mainPath, targetPkg)] *)
Definition cachedMainImportsPackage (g : GoDepFind)
    (mainPath targetPkg : string) : bool :=
  match cachedImports (queryFuel (dependencyGraph g)) (dependencyGraph g)
                      mainPath targetPkg ∅ with
  | Some (b, _) => b
  | None => false
  end.

(** ** File validation (validation.go) *)

(** [hasValidGoSyntax(filePath)] *)
Definition hasValidGoSyntax (w : World) (filePath : string) : result bool :=
  match ParseFile w filePath with
  | None => Ok true
  | Some e =>
      if Strings.Contains e "expected"
         || Strings.Contains e "found 'EOF'"
         || Strings.Contains e "unexpected"
      then Ok false
      else Err e
  end.

(** [IsValidGoFile(filePath)] *)
Definition IsValidGoFile (w : World) (filePath : string) : result bool :=
  match Stat w filePath with
  | StatInfo size =>
      if decide (size = 0%N) then Ok false
      else if decide (Ext w filePath = ".go") then hasValidGoSyntax w filePath
      else Ok false
  | StatNotExist e => Err e
  | StatError e => Err e
  end.

(** ** Imports of one file (godepfind.go) *)

Definition quote : string := String "034"%char EmptyString.
Definition newline : ascii := "010"%char.

(** [extractImportPath(line)] *)
Definition extractImportPath (line : string) : string :=
  let line := match Strings.Index line "//" with
              | Some idx => Strings.slice line 0 idx
              | None => line
              end in
  let line := Strings.TrimSpace line in
  if decide (line = "") then ""
  else
    let line := Strings.TrimPrefix line "import " in
    let line := Strings.TrimSpace line in
    match Strings.Index line quote with
    | None => ""
    | Some start =>
        match Strings.LastIndex line quote with
        | None => ""
        | Some stop =>
            if Nat.leb stop start then ""
            else Strings.slice line (start + 1) stop
        end
    end.

(** One iteration of the loop over the lines in [parseFileImports]; the
    state is [inImportBlock] and the imports collected so far. *)
Definition importLine (acc : bool * list string) (rawLine : string)
  : bool * list string :=
  let '(inImportBlock, imports) := acc in
  let line := Strings.TrimSpace rawLine in
  let collect :=
    let path := extractImportPath line in
    if decide (path = "") then imports else imports ++ [path] in
  if decide (line = "import (") then (true, imports)
  else if inImportBlock && bool_decide (line = ")") then (false, imports)
  else if inImportBlock then (inImportBlock, collect)
  else if Strings.HasPrefix line "import " then (inImportBlock, collect)
  else (inImportBlock, imports).

Definition importsOfSource (content : string) : list string :=
  (fold_left importLine (Strings.SplitByte content newline) (false, [])).2.

(** [parseFileImports(filePath)] *)
Definition parseFileImports (w : World) (filePath : string)
  : result (list string) :=
  match ReadFile w filePath with
  | Err e => Err e
  | Ok content => Ok (importsOfSource content)
  end.

(** ** Ownership (godepfind.go) *)

(** [isMainPackage(pkgPath)] *)
Definition isMainPackage (g : GoDepFind) (pkgPath : string) : bool :=
  contains (mainPackages g) pkgPath.

(** The relative-path fallback of [findPackageForFile] *)
Definition lookupRelative (w : World) (g : GoDepFind) (fileAbsPath : string)
  : option string :=
  match Getwd w with
  | Ok cwd =>
      match Rel w cwd fileAbsPath with
      | Ok relPath => filePathToPackage g !! relPath
      | Err _ => None
      end
  | Err _ => None
  end.

(** [findPackageForFile(fileAbsPath)] *)
Definition findPackageForFile (w : World) (fileAbsPath : string) : M string :=
  run ensureCacheInitialized w in
  λ g, match filePathToPackage g !! fileAbsPath with
       | Some pkg => (Ok pkg, g)
       | None =>
           match lookupRelative w g fileAbsPath with
           | Some pkg => (Ok pkg, g)
           | None =>
               match slicesAt (fileToPackages g) (Base w fileAbsPath) with
               | first :: _ => (Ok first, g)
               | [] => (Ok "", g)
               end
           end
       end.

(** The handler file's path as [handlerFileImportsPackage] and
    [ThisFileIsMine] build it *)
Definition handlerAbs (w : World) (g : GoDepFind) (handlerFile : string)
  : string :=
  if IsAbs w handlerFile then handlerFile else Join w (rootDir g) handlerFile.

(** [handlerFileImportsPackage(handlerFileRelativePath, targetPkg)] *)
Definition handlerFileImportsPackage (w : World)
    (handlerFileRelativePath targetPkg : string)
  : GoDepFind → bool * GoDepFind :=
  λ g, match ensureCacheInitialized w g with
       | (Err _, g') => (false, g')
       | (Ok _, g') =>
           match parseFileImports w (handlerAbs w g' handlerFileRelativePath)
           with
           | Err _ => (false, g')
           | Ok imports =>
               if contains imports targetPkg then (true, g')
               else (existsb (λ imp, cachedMainImportsPackage g' imp targetPkg)
                             imports, g')
           end
       end.

(** [doesPackageBelongToHandler(targetPkg, mainInputFileRelativePath)] *)
Definition doesPackageBelongToHandler (w : World)
    (targetPkg mainInputFileRelativePath : string)
  : GoDepFind → bool * GoDepFind :=
  λ g,
    let handlerDir := DirOf w mainInputFileRelativePath in
    if isMainPackage g targetPkg then
      let byName :=
        bool_decide (Base w targetPkg = Base w handlerDir) in
      match alookup targetPkg (packageCache g) with
      | Some pkg =>
          match Rel w (rootDir g) (Dir pkg) with
          | Ok relPkgDir =>
              (bool_decide (Clean w relPkgDir = Clean w handlerDir), g)
          | Err _ => (byName, g)
          end
      | None => (byName, g)
      end
    else handlerFileImportsPackage w mainInputFileRelativePath targetPkg g.

(** [checkPackageBasedOwnership(mainInputFileRelativePath, fileAbsPath)] *)
Definition checkPackageBasedOwnership (w : World)
    (mainInputFileRelativePath fileAbsPath : string) : M bool :=
  let* targetPkg := findPackageForFile w fileAbsPath in
  if decide (targetPkg = "") then ret false
  else λ g, let '(b, g') :=
              doesPackageBelongToHandler w targetPkg mainInputFileRelativePath g
            in (Ok b, g').

(** Step 4 of [ThisFileIsMine]: [Ok true] to go on, [Ok false] to return
    [(false, nil)], [Err] to return the error. *)
Definition validateTarget (w : World) (fileAbsPath : string) : result bool :=
  if decide (Ext w fileAbsPath = ".go") then
    match IsValidGoFile w fileAbsPath with
    | Err e => Err (wrap "file validation failed: " e)
    | Ok isValid => Ok isValid
    end
  else Ok true.

(** [ThisFileIsMine(mainInputFileRelativePath, fileAbsPath, event)] *)
Definition ThisFileIsMine (w : World)
    (mainInputFileRelativePath fileAbsPath event : string) : M bool :=
  λ g,
    if decide (fileAbsPath = "") then (Err "fileAbsPath cannot be empty", g)
    else if decide (mainInputFileRelativePath = "") then
      (Err "handler mainInputFileRelativePath cannot be empty", g)
    else
      let joined := if IsAbs w fileAbsPath then fileAbsPath
                    else Join w (rootDir g) fileAbsPath in
      match Abs w joined with
      | Err e =>
          (Err (wrap "cannot resolve fileAbsPath to absolute path: " e), g)
      | Ok fileAbsPath =>
          match Stat w (handlerAbs w g mainInputFileRelativePath) with
          | StatNotExist _ =>
              (Err ("handler main file does not exist: "
                    +:+ mainInputFileRelativePath), g)
          | StatError e =>
              (Err ("cannot access handler main file "
                    +:+ mainInputFileRelativePath +:+ ": " +:+ e), g)
          | StatInfo _ =>
              match validateTarget w fileAbsPath with
              | Err e => (Err e, g)
              | Ok false => (Ok false, g)
              | Ok true =>
                  let relativeFilePath :=
                    Strings.TrimPrefix fileAbsPath (rootDir g +:+ "/") in
                  if decide (relativeFilePath = mainInputFileRelativePath)
                  then
                    (run wrapErr "cache update failed: "
                           (updateCacheForFileWithContext w fileAbsPath event
                              mainInputFileRelativePath) in
                     ret true) g
                  else
                    checkPackageBasedOwnership w mainInputFileRelativePath
                      fileAbsPath g
              end
          end
      end.

(** ** The query with a log of the units it expands

    A unit is expanded when a call gets past the [visited] guard: it is
    marked and its dependency list is walked.  The log lists the expanded
    units in order; it is ghost state, erased by [cachedImportsLog_erase]. *)

Fixpoint depsLoopLog
    (call : string → gset string → option (bool * gset string * list string))
    (targetPkg : string) (deps : list string) (visited : gset string)
  : option (bool * gset string * list string) :=
  match deps with
  | [] => Some (false, visited, [])
  | dep :: rest =>
      if decide (dep = targetPkg) then Some (true, visited, [])
      else match call dep visited with
           | None => None
           | Some (true, visited', log) => Some (true, visited', log)
           | Some (false, visited', log) =>
               match depsLoopLog call targetPkg rest visited' with
               | None => None
               | Some (b, visited'', log') => Some (b, visited'', log ++ log')
               end
           end
  end.

Fixpoint cachedImportsLog (fuel : nat) (dg : gmap string (list string))
    (path targetPkg : string) (visited : gset string)
  : option (bool * gset string * list string) :=
  match fuel with
  | 0 => None
  | S fuel' =>
      if decide (path ∈ visited) then Some (false, visited, [])
      else
        let visited := {[path]} ∪ visited in
        if decide (path = targetPkg) then Some (true, visited, [path])
        else match dg !! path with
             | Some deps =>
                 match depsLoopLog
                         (λ dep v, cachedImportsLog fuel' dg dep targetPkg v)
                         targetPkg deps visited with
                 | None => None
                 | Some (b, visited', log) => Some (b, visited', path :: log)
                 end
             | None => Some (false, visited, [path])
             end
  end.

Definition eraseLog (r : bool * gset string * list string)
  : bool * gset string := (r.1.1, r.1.2).

(** The log of a call lists, without repetition, the units the call
    marked. *)
Definition logsMarks (before after : gset string) (log : list string) : Prop :=
  before ⊆ after ∧ NoDup log ∧ ∀ x, x ∈ log ↔ x ∈ after ∧ x ∉ before.

(** ** Reachability in the dependency graph *)

(** [reaches dg a b]: [b] is [a] or a dependency of [a], direct or
    transitive. *)
Inductive reaches (dg : gmap string (list string)) : string → string → Prop :=
| reaches_here a : reaches dg a a
| reaches_dep a b c deps :
    dg !! a = Some deps → b ∈ deps → reaches dg b c → reaches dg a c.


(** What a call that answers [false] leaves in [visited]: every unit it
    marked is not the target and has all its dependencies marked. *)
Definition settled (dg : gmap string (list string)) (targetPkg : string)
    (before after : gset string) : Prop :=
  before ⊆ after ∧
  ∀ u, u ∈ after → u ∉ before →
       u ≠ targetPkg ∧
       ∀ deps d, dg !! u = Some deps → d ∈ deps → d ∈ after.

(** ** Conditions of the resolver's steps *)

(** Steps 1 to 3 of [ThisFileIsMine] let the call through with the changed
    file's absolute path [fileAbsPath]: both paths are non-empty, the path
    resolves and the handler's file exists. *)
Definition reachesValidation (w : World) (g : GoDepFind)
    (handlerFile file fileAbsPath : string) : Prop :=
  file ≠ "" ∧ handlerFile ≠ ""
  ∧ Abs w (if IsAbs w file then file else Join w (rootDir g) file)
    = Ok fileAbsPath
  ∧ statOk w (handlerAbs w g handlerFile) = true.

(** The conditions under which [ThisFileIsMine] gets to the dependency
    check: the inputs pass steps 1 to 3 and the validity check of step 4,
    the file is not the handler's own file, the cache is (or gets) populated as [g1], the file index resolves
    the file to the unit [unit], which is not a main package, and the
    handler's file reads as [imports]. *)
Definition dependencyCheck (w : World) (g : GoDepFind)
    (handlerFile file : string) (g1 : GoDepFind) (unit : string)
    (imports : list string) : Prop :=
  ∃ fileAbsPath,
    reachesValidation w g handlerFile file fileAbsPath
    ∧ validateTarget w fileAbsPath = Ok true
    ∧ Strings.TrimPrefix fileAbsPath (rootDir g +:+ "/") ≠ handlerFile
    ∧ findPackageForFile w fileAbsPath g = (Ok unit, g1)
    ∧ unit ≠ ""
    ∧ isMainPackage g1 unit = false
    ∧ parseFileImports w (handlerAbs w g1 handlerFile) = Ok imports.


(** ** Conditions and invariants of the cache *)


(** The write event is for a file of the cached unit [unit], it is not
    the handler's entry point, and the unit's directory imports as
    [newPkg]. *)
Definition writesCachedUnit (w : World) (g : GoDepFind)
    (filePath handlerFile unit : string) (newPkg : Package) : Prop :=
  cachedModule g = true
  ∧ (handlerFile = "" ∨ isSameFile w g filePath handlerFile = false)
  ∧ unit ≠ ""
  ∧ ∃ absPath pkg,
      Abs w filePath = Ok absPath
      ∧ ownerIn w CacheLoop (testImports g) (packageCache g) absPath
        = Some unit
      ∧ alookup unit (packageCache g) = Some pkg
      ∧ ImportDir w (Dir pkg) = Ok newPkg.

(** The reverse index is the transpose of the dependency graph. *)
Definition transposed (g : GoDepFind) : Prop :=
  ∀ p q, p ∈ slicesAt (reverseDeps g) q ↔ q ∈ slicesAt (dependencyGraph g) p.

(** No list of the reverse index names a package twice. *)
Definition reverseListsDistinct (g : GoDepFind) : Prop :=
  ∀ q, NoDup (slicesAt (reverseDeps g) q).

(** The create or remove event is for a file that the cached package
    [unit] lists, at the absolute path [absPath]. *)
Definition touchesCachedUnit (w : World) (g : GoDepFind)
    (filePath absPath unit : string) : Prop :=
  cachedModule g = true
  ∧ filePath ≠ ""
  ∧ unit ≠ ""
  ∧ Abs w filePath = Ok absPath
  ∧ ownerIn w CacheLoop (testImports g) (packageCache g) absPath = Some unit.

(** The write event is for a file of the cached unit [unit], it is not the
    handler's entry point, and the unit's directory no longer imports: the
    import fails with [e]. *)
Definition writesBrokenUnit (w : World) (g : GoDepFind)
    (filePath handlerFile unit : string) (e : error) : Prop :=
  cachedModule g = true
  ∧ (handlerFile = "" ∨ isSameFile w g filePath handlerFile = false)
  ∧ unit ≠ ""
  ∧ ∃ absPath pkg,
      Abs w filePath = Ok absPath
      ∧ ownerIn w CacheLoop (testImports g) (packageCache g) absPath
        = Some unit
      ∧ alookup unit (packageCache g) = Some pkg
      ∧ ImportDir w (Dir pkg) = Err e.

(** The path [isSameFile] compares for [filePath]: the path made absolute,
    against the root directory when it is relative *)
Definition comparedPath (w : World) (g : GoDepFind) (filePath : string)
  : result string :=
  match Abs w filePath with
  | Err e => Err e
  | Ok abs =>
      if IsAbs w filePath then Ok abs
      else match Abs w (Join w (rootDir g) filePath) with
           | Ok absFromRoot => Ok absFromRoot
           | Err _ => Ok abs
           end
  end.

(** The changed file is not the handler's entry point: step 5 of
    [ThisFileIsMine] does not match. *)
Definition notEntryPoint (w : World) (g : GoDepFind)
    (handlerFile file : string) : Prop :=
  ∀ fileAbsPath,
    Abs w (if IsAbs w file then file else Join w (rootDir g) file)
    = Ok fileAbsPath →
    Strings.TrimPrefix fileAbsPath (rootDir g +:+ "/") ≠ handlerFile.

(** ** What the indices of a rebuilt cache list *)

(** The files of a package that step 4 of [rebuildCache] indexes *)
Definition indexedFiles (ti : bool) (pkg : Package) : list string :=
  if ti then GoFiles pkg ++ TestGoFiles pkg ++ XTestGoFiles pkg
  else GoFiles pkg.

(** The packages step 4 of [rebuildCache] records under the base name
    [name] when its loop visits the packages [visited]: each package once
    for each of its indexed files of that base name, in the order of the
    visit *)
Definition candidatesIn (w : World) (ti : bool) (name : string)
    (visited : list (string * Package)) : list string :=
  flat_map (λ entry,
              (λ _, entry.1)
                <$> filter (λ file, Base w file = name)
                           (indexedFiles ti (entry.2)))
           visited.

(** Steps 1 and 2 of [rebuildCache] succeed: [go list ./...] lists packages
    and each of them imports; [packages] is the map they give. *)
Definition scans (w : World) (g : GoDepFind)
    (packages : list (string * Package)) : Prop :=
  ∃ allPaths,
    listPackages w "./..." g = (Ok allPaths, g)
    ∧ getPackages w allPaths g = (Ok packages, g).



(** ** The earlier cache.go

    The sources hold a second, earlier cache.go.  It differs from the one
    above in [invalidatePackageCache], which also drops the package's own
    entry of [reverseDeps] and takes the package out of the dependency lists
    of the other packages, and in the write case of
    [updateCacheForFileWithContext], which calls
    [invalidatePackageCacheOnly]. *)

Module Legacy.

(** [invalidatePackageCache(filePath)].  The loop over [dependencyGraph]
    rewrites each list in place ([append(deps[:i], deps[i+1:]...)]); the
    lists share their arrays with the Imports of the cached packages, which
    nothing reads afterwards. *)
Definition invalidatePackageCache (w : World) (filePath : string) : M unit :=
  λ g, match findPackageContainingFileByPath w filePath g with
       | (Err _, g') => (Ok tt, g')
       | (Ok pkg, g') =>
           if decide (pkg = "") then (Ok tt, g')
           else (Ok tt,
                 withReverseDeps (delete pkg (reverseDeps g'))
                   (withDependencyGraph
                      ((λ deps, removeString deps pkg)
                         <$> delete pkg (dependencyGraph g'))
                      (withPackageCache (adelete pkg (packageCache g')) g')))
       end.

(** [handleFileCreate(filePath)] *)
Definition handleFileCreate (w : World) (filePath : string) : M unit :=
  let* pkg := findPackageContainingFileByPath w filePath in
  if decide (pkg = "") then ret tt
  else
    let* g := get in
    let fp := match Abs w filePath with
              | Ok absPath => <[absPath := pkg]> (filePathToPackage g)
              | Err _ => filePathToPackage g
              end in
    let fileName := Base w filePath in
    let ftp := if contains (slicesAt (fileToPackages g) fileName) pkg
               then fileToPackages g
               else appendAt (fileToPackages g) fileName pkg in
    run put (withFileToPackages ftp (withFilePathToPackage fp g)) in
    invalidatePackageCache w filePath.

(** [handleFileRemove(filePath)] *)
Definition handleFileRemove (w : World) (filePath : string) : M unit :=
  λ g,
    let g1 :=
      if decide (filePath = "") then g
      else match Abs w filePath with
           | Ok absPath =>
               withFilePathToPackage (delete absPath (filePathToPackage g)) g
           | Err _ => g
           end in
    let g2 :=
      if decide (filePath = "") then g1
      else
        let '(r, g') := findPackageContainingFileByPath w filePath g1 in
        let pkg := match r with Ok pkg => pkg | Err _ => "" end in
        if decide (pkg = "") then g'
        else
          let fileName := Base w filePath in
          withFileToPackages
            (<[fileName := removeString (slicesAt (fileToPackages g') fileName)
                                        pkg]> (fileToPackages g')) g' in
    invalidatePackageCache w filePath g2.

(** [updateCacheForFileWithContext(filePath, event, handlerMainFile)] *)
Definition updateCacheForFileWithContext (w : World)
    (filePath event handlerMainFile : string) : M unit :=
  run ensureCacheInitialized w in
  if decide (event = "write") then
    λ g, if negb (bool_decide (handlerMainFile = ""))
            && isSameFile w g filePath handlerMainFile
         then rescanMainPackageDependencies w filePath g
         else invalidatePackageCacheOnly w filePath g
  else if decide (event = "create") then handleFileCreate w filePath
  else if decide (event = "remove") then handleFileRemove w filePath
  else if decide (event = "rename") then
    run handleFileRemove w filePath in handleFileCreate w filePath
  else ret tt.

End Legacy.

(** ** A concrete world: POSIX paths over a small disk

    The theorems below hold for every [World].  The examples run the code in
    worlds built here from a working directory, the regular files with their
    contents, the directories, the parse errors of the files that have one,
    the output of [go list], the packages [build.ImportDir] finds, by
    directory, and the ranks by which the runtime orders the loops over
    maps. *)

Module Posix.

Definition sep : ascii := "/"%char.

Definition IsAbs (path : string) : bool := Strings.HasPrefix path "/".

(** The elements of a path, without the empty ones and the dots *)
Definition elements (path : string) : list string :=
  filter (λ c, c ≠ "" ∧ c ≠ ".") (Strings.SplitByte path sep).

(** The stack of elements [filepath.Clean] keeps, innermost first *)
Fixpoint cleanStack (rooted : bool) (elems stack : list string) : list string :=
  match elems with
  | [] => stack
  | e :: rest =>
      if decide (e = "..") then
        match stack with
        | top :: below =>
            if decide (top = "..") then cleanStack rooted rest (e :: stack)
            else cleanStack rooted rest below
        | [] => if rooted then cleanStack rooted rest []
                else cleanStack rooted rest [e]
        end
      else cleanStack rooted rest (e :: stack)
  end.

Definition cleanElements (path : string) : list string :=
  rev (cleanStack (IsAbs path) (elements path) []).

Definition Clean (path : string) : string :=
  let body := String.concat "/" (cleanElements path) in
  if IsAbs path then "/" +:+ body
  else if decide (body = "") then "." else body.

Definition Join (a b : string) : string :=
  if decide (a = "") then (if decide (b = "") then "" else Clean b)
  else if decide (b = "") then Clean a
  else Clean (a +:+ "/" +:+ b).

Definition Abs (wd : result string) (path : string) : result string :=
  if IsAbs path then Ok (Clean path)
  else match wd with
       | Ok cwd => Ok (Join cwd path)
       | Err e => Err e
       end.

Definition Base (path : string) : string :=
  if decide (path = "") then "."
  else match last (filter (λ c, c ≠ "") (Strings.SplitByte path sep)) with
       | Some name => name
       | None => "/"
       end.

Definition DirOf (path : string) : string :=
  match Strings.LastIndex path "/" with
  | Some i => Clean (Strings.slice path 0 (i + 1))
  | None => "."
  end.

Definition Ext (path : string) : string :=
  let name := match last (Strings.SplitByte path sep) with
              | Some name => name
              | None => ""
              end in
  match Strings.LastIndex name "." with
  | Some i => Strings.slice name i (String.length name)
  | None => ""
  end.

(** The elements two paths share at their start are dropped *)
Fixpoint dropCommon (base targ : list string) : list string * list string :=
  match base, targ with
  | b :: base', t :: targ' =>
      if decide (b = t) then dropCommon base' targ' else (base, targ)
  | _, _ => (base, targ)
  end.

Definition Rel (basepath targpath : string) : result string :=
  if negb (Bool.eqb (IsAbs basepath) (IsAbs targpath)) then
    Err ("Rel: can't make " +:+ targpath +:+ " relative to " +:+ basepath)
  else
    let '(up, down) :=
      dropCommon (cleanElements basepath) (cleanElements targpath) in
    if bool_decide (".." ∈ up) then
      Err ("Rel: can't make " +:+ targpath +:+ " relative to " +:+ basepath)
    else
      let elems := ((λ _, "..") <$> up) ++ down in
      Ok (if decide (elems = []) then "." else String.concat "/" elems).

Record Disk : Type := mkDisk {
  cwd : string;
  files : list (string * string);
  directories : list string;
  parseErrors : list (string * error);
  goList : list string * option error;
  buildable : list (string * Package)
}.

(** A path as the operating system resolves it: against the working
    directory when it is relative *)
Definition resolve (d : Disk) (path : string) : string :=
  if IsAbs path then Clean path else Join (cwd d) path.

Definition Stat (d : Disk) (path : string) : statResult :=
  match alookup (resolve d path) (files d) with
  | Some content => StatInfo (N.of_nat (String.length content))
  | None =>
      if bool_decide (resolve d path ∈ directories d) then StatInfo 4096%N
      else StatNotExist ("stat " +:+ path +:+ ": no such file or directory")
  end.

Definition ReadFile (d : Disk) (path : string) : result string :=
  match alookup (resolve d path) (files d) with
  | Some content => Ok content
  | None => Err ("open " +:+ path +:+ ": no such file or directory")
  end.

(** [build.ImportDir]: the package found in the directory, its [Dir] the
    path it was asked for *)
Definition ImportDir (d : Disk) (dir : string) : result Package :=
  match alookup (resolve d dir) (buildable d) with
  | Some pkg =>
      Ok (mkPackage (Name pkg) dir (Imports pkg) (TestImports pkg)
                    (XTestImports pkg) (GoFiles pkg) (TestGoFiles pkg)
                    (XTestGoFiles pkg))
  | None => Err ("no buildable Go source files in " +:+ dir)
  end.

(** A world whose loops over maps follow the ranks [ranks] *)
Definition worldRanging (ranks : rangeLoop → string → nat) (d : Disk)
  : World :=
  mkWorld (Ok (cwd d)) IsAbs Join (Abs (Ok (cwd d))) Rel Base DirOf Ext Clean
          (Stat d) (ReadFile d)
          (λ path, alookup (resolve d path) (parseErrors d))
          (λ _ _, goList d) (ImportDir d)
          (λ path _, Err ("package " +:+ path +:+ " is not in std"))
          ranks.

(** A world whose loops over maps visit the entries in the order in which
    they were inserted *)
Definition world (d : Disk) : World := worldRanging (λ _ _, 0) d.

End Posix.

(** ** Worlds and states the examples run in *)

Definition nl : string := String newline EmptyString.

(** A source file from its lines *)
Definition source (lines : list string) : string :=
  String.concat nl lines +:+ nl.

(** [import "path"] *)
Definition importDecl (path : string) : string :=
  "import " +:+ quote +:+ path +:+ quote.

(** A finder whose graph is the cycle a -> b -> c -> a *)
Definition cycleFinder : GoDepFind :=
  withDependencyGraph
    (<["a" := ["b"]]> (<["b" := ["c"]]> (<["c" := ["a"]]> ∅)))
    (New "/work").

(** The project of TestGoHandlerRoutingIssue: two entry points in the
    directory pwa, selected by build tags; main.server.go imports
    testproject/database, main.wasm.go imports testproject/dom. *)
Definition serverMain : string := source
  [ "//go:build !wasm"; "// +build !wasm"; ""; "package main"; "";
    importDecl "testproject/database"; "";
    "func main() {"; "	database.Connect()"; "}" ].

Definition wasmMain : string := source
  [ "//go:build wasm"; "// +build wasm"; ""; "package main"; "";
    importDecl "testproject/dom"; "";
    "func main() {"; "	dom.DomFunc()"; "}" ].

Definition routingDisk : Posix.Disk :=
  {| Posix.cwd := "/home/dev";
     Posix.files :=
       [ ("/tmp/proj/pwa/main.server.go", serverMain);
         ("/tmp/proj/pwa/main.wasm.go", wasmMain);
         ("/tmp/proj/database/db.go",
          source ["package database"; ""; "func Connect() {"; "}"]);
         ("/tmp/proj/dom/dom.go",
          source ["package dom"; ""; "func DomFunc() {}"]);
         ("/tmp/proj/testdata/sample.go", source ["package sample"]) ];
     Posix.directories :=
       [ "/tmp/proj"; "/tmp/proj/pwa"; "/tmp/proj/database"; "/tmp/proj/dom";
         "/tmp/proj/testdata" ];
     Posix.parseErrors := [];
     Posix.goList :=
       ([ "testproject/pwa"; "testproject/database"; "testproject/dom" ], None);
     Posix.buildable :=
       [ ("/tmp/proj/pwa",
          mkPackage "main" "/tmp/proj/pwa" ["testproject/database"] [] []
                    ["main.server.go"] [] []);
         ("/tmp/proj/database",
          mkPackage "database" "/tmp/proj/database" [] [] [] ["db.go"] [] []);
         ("/tmp/proj/dom",
          mkPackage "dom" "/tmp/proj/dom" [] [] [] ["dom.go"] [] []) ] |}.

Definition routingWorld : World := Posix.world routingDisk.

(** The finder of that project once its cache is populated *)
Definition routingFinder : GoDepFind :=
  (rebuildCache routingWorld (New "/tmp/proj")).2.

(** The routing project on a machine where [go list] fails *)
Definition brokenToolchainDisk : Posix.Disk :=
  {| Posix.cwd := Posix.cwd routingDisk;
     Posix.files := Posix.files routingDisk;
     Posix.directories := Posix.directories routingDisk;
     Posix.parseErrors := Posix.parseErrors routingDisk;
     Posix.goList := ([], Some "exit status 1");
     Posix.buildable := Posix.buildable routingDisk |}.

Definition brokenToolchainWorld : World := Posix.world brokenToolchainDisk.

(** The routing project while main.server.go is being saved: the file is
    there, truncated to nothing. *)
Definition truncatedDisk : Posix.Disk :=
  {| Posix.cwd := Posix.cwd routingDisk;
     Posix.files :=
       ("/tmp/proj/pwa/main.server.go", "") :: Posix.files routingDisk;
     Posix.directories := Posix.directories routingDisk;
     Posix.parseErrors := Posix.parseErrors routingDisk;
     Posix.goList := Posix.goList routingDisk;
     Posix.buildable := Posix.buildable routingDisk |}.

Definition truncatedWorld : World := Posix.world truncatedDisk.

(** The project of TestDynamicDependencyDetection, before and after
    appDserver/main.go is edited to import testmod/modules/database. *)
Definition plainMain : string := source
  [ "package main"; ""; "func main() {"; "    // initially no imports"; "}" ].

Definition importingMain : string := source
  [ "package main"; ""; "import (";
    "    " +:+ quote +:+ "testmod/modules/database" +:+ quote; ")"; "";
    "func main() {"; "    database.Ping()"; "}" ].

Definition dynamicDisk (mainSource : string) (mainImports : list string)
  : Posix.Disk :=
  {| Posix.cwd := "/home/dev";
     Posix.files :=
       [ ("/tmp/dyn/appDserver/main.go", mainSource);
         ("/tmp/dyn/modules/database/db.go",
          source ["package database"; ""; "func Ping() {}"]) ];
     Posix.directories :=
       [ "/tmp/dyn"; "/tmp/dyn/appDserver"; "/tmp/dyn/modules";
         "/tmp/dyn/modules/database" ];
     Posix.parseErrors := [];
     Posix.goList := ([ "testmod/appDserver"; "testmod/modules/database" ], None);
     Posix.buildable :=
       [ ("/tmp/dyn/appDserver",
          mkPackage "main" "/tmp/dyn/appDserver" mainImports [] []
                    ["main.go"] [] []);
         ("/tmp/dyn/modules/database",
          mkPackage "database" "/tmp/dyn/modules/database" [] [] []
                    ["db.go"] [] []) ] |}.

Definition worldBeforeEdit : World := Posix.world (dynamicDisk plainMain []).
Definition worldAfterEdit : World :=
  Posix.world (dynamicDisk importingMain ["testmod/modules/database"]).

Definition finderBeforeEdit : GoDepFind :=
  (rebuildCache worldBeforeEdit (New "/tmp/dyn")).2.
Definition finderAfterEdit : GoDepFind :=
  (rebuildCache worldAfterEdit finderBeforeEdit).2.

(** A project whose library [mod/lib] imports [mod/old] when the cache is
    populated and [mod/new] after lib/lib.go is edited. *)
Definition libraryDisk (libImport : string) : Posix.Disk :=
  {| Posix.cwd := "/home/dev";
     Posix.files :=
       [ ("/tmp/lib/app/main.go",
          source ["package main"; ""; importDecl "mod/lib"; "";
                  "func main() {"; "}"]);
         ("/tmp/lib/lib/lib.go",
          source ["package lib"; ""; importDecl libImport]);
         ("/tmp/lib/old/old.go", source ["package old"]);
         ("/tmp/lib/new/new.go", source ["package new"]) ];
     Posix.directories :=
       [ "/tmp/lib"; "/tmp/lib/app"; "/tmp/lib/lib"; "/tmp/lib/old";
         "/tmp/lib/new" ];
     Posix.parseErrors := [];
     Posix.goList := ([ "mod/app"; "mod/lib"; "mod/old"; "mod/new" ], None);
     Posix.buildable :=
       [ ("/tmp/lib/app",
          mkPackage "main" "/tmp/lib/app" ["mod/lib"] [] [] ["main.go"] [] []);
         ("/tmp/lib/lib",
          mkPackage "lib" "/tmp/lib/lib" [libImport] [] [] ["lib.go"] [] []);
         ("/tmp/lib/old",
          mkPackage "old" "/tmp/lib/old" [] [] [] ["old.go"] [] []);
         ("/tmp/lib/new",
          mkPackage "new" "/tmp/lib/new" [] [] [] ["new.go"] [] []) ] |}.

Definition libraryWorldBefore : World := Posix.world (libraryDisk "mod/old").

Definition libraryFinder : GoDepFind :=
  (rebuildCache libraryWorldBefore (New "/tmp/lib")).2.

(** lib/lib.go no longer on the disk *)
Definition libraryDiskWithoutLib : Posix.Disk :=
  {| Posix.cwd := "/home/dev";
     Posix.files :=
       filter (λ entry, entry.1 ≠ "/tmp/lib/lib/lib.go")
              (Posix.files (libraryDisk "mod/old"));
     Posix.directories := Posix.directories (libraryDisk "mod/old");
     Posix.parseErrors := [];
     Posix.goList := ([ "mod/app"; "mod/old"; "mod/new" ], None);
     Posix.buildable :=
       filter (λ entry, entry.1 ≠ "/tmp/lib/lib")
              (Posix.buildable (libraryDisk "mod/old")) |}.

Definition libraryWorldWithoutLib : World := Posix.world libraryDiskWithoutLib.


Definition finderAfterLibRemove : GoDepFind :=
  (updateCacheForFileWithContext libraryWorldWithoutLib "/tmp/lib/lib/lib.go"
     "remove" "app/main.go" libraryFinder).2.

Definition finderAfterLibCreate : GoDepFind :=
  (updateCacheForFileWithContext libraryWorldBefore "/tmp/lib/lib/lib.go"
     "create" "app/main.go" libraryFinder).2.

(** The library project's finder after its handler is told that its own
    entry point, app/main.go, was removed (the file still there) *)
Definition finderAfterMainRemove : GoDepFind :=
  (ThisFileIsMine libraryWorldBefore "app/main.go" "/tmp/lib/app/main.go"
     "remove" libraryFinder).2.

(** The layout of the repository's testproject, used with the relative
    root "testproject" from the directory /repo: three entry points, each
    in its own directory, and three modules. *)
Definition testprojectDisk : Posix.Disk :=
  {| Posix.cwd := "/repo";
     Posix.files :=
       [ ("/repo/testproject/appAserver/main.go",
          source ["package main"; ""; importDecl "testproject/modules/module1";
                  ""; "func main() {"; "}"]);
         ("/repo/testproject/appBcmd/main.go",
          source ["package main"; ""; importDecl "testproject/modules/module1";
                  ""; "func main() {"; "}"]);
         ("/repo/testproject/appCwasm/main.go",
          source ["package main"; ""; importDecl "testproject/modules/module3";
                  ""; "func main() {"; "}"]);
         ("/repo/testproject/modules/module1/module1.go",
          source ["package module1"]);
         ("/repo/testproject/modules/module3/module3.go",
          source ["package module3"]) ];
     Posix.directories :=
       [ "/repo"; "/repo/testproject"; "/repo/testproject/appAserver";
         "/repo/testproject/appBcmd"; "/repo/testproject/appCwasm";
         "/repo/testproject/modules"; "/repo/testproject/modules/module1";
         "/repo/testproject/modules/module3" ];
     Posix.parseErrors := [];
     Posix.goList :=
       ([ "testproject/appAserver"; "testproject/appBcmd";
          "testproject/appCwasm"; "testproject/modules/module1";
          "testproject/modules/module3" ], None);
     Posix.buildable :=
       [ ("/repo/testproject/appAserver",
          mkPackage "main" "" ["testproject/modules/module1"] [] []
                    ["main.go"] [] []);
         ("/repo/testproject/appBcmd",
          mkPackage "main" "" ["testproject/modules/module1"] [] []
                    ["main.go"] [] []);
         ("/repo/testproject/appCwasm",
          mkPackage "main" "" ["testproject/modules/module3"] [] []
                    ["main.go"] [] []);
         ("/repo/testproject/modules/module1",
          mkPackage "module1" "" [] [] [] ["module1.go"] [] []);
         ("/repo/testproject/modules/module3",
          mkPackage "module3" "" [] [] [] ["module3.go"] [] []) ] |}.

Definition testprojectWorld : World := Posix.world testprojectDisk.

(** The project of TestNestedDependencyOwnership: cmd/main.go imports
    level1, which imports level2, and so on down to level4. *)
Definition nestedDisk : Posix.Disk :=
  {| Posix.cwd := "/home/dev";
     Posix.files :=
       [ ("/tmp/nest/cmd/main.go",
          source ["package main"; ""; importDecl "testproject/level1"; "";
                  "func main() {"; "}"]);
         ("/tmp/nest/level1/lib.go",
          source ["package level1"; ""; importDecl "testproject/level2"]);
         ("/tmp/nest/level2/lib.go",
          source ["package level2"; ""; importDecl "testproject/level3"]);
         ("/tmp/nest/level3/lib.go",
          source ["package level3"; ""; importDecl "testproject/level4"]);
         ("/tmp/nest/level4/target.go", source ["package level4"]) ];
     Posix.directories :=
       [ "/tmp/nest"; "/tmp/nest/cmd"; "/tmp/nest/level1"; "/tmp/nest/level2";
         "/tmp/nest/level3"; "/tmp/nest/level4" ];
     Posix.parseErrors := [];
     Posix.goList :=
       ([ "testproject/cmd"; "testproject/level1"; "testproject/level2";
          "testproject/level3"; "testproject/level4" ], None);
     Posix.buildable :=
       [ ("/tmp/nest/cmd",
          mkPackage "main" "" ["testproject/level1"] [] [] ["main.go"] [] []);
         ("/tmp/nest/level1",
          mkPackage "level1" "" ["testproject/level2"] [] [] ["lib.go"] [] []);
         ("/tmp/nest/level2",
          mkPackage "level2" "" ["testproject/level3"] [] [] ["lib.go"] [] []);
         ("/tmp/nest/level3",
          mkPackage "level3" "" ["testproject/level4"] [] [] ["lib.go"] [] []);
         ("/tmp/nest/level4",
          mkPackage "level4" "" [] [] [] ["target.go"] [] []) ] |}.

Definition nestedWorld : World := Posix.world nestedDisk.

Definition legacyFinderAfterLibRemove : GoDepFind :=
  (Legacy.updateCacheForFileWithContext libraryWorldWithoutLib
     "/tmp/lib/lib/lib.go" "remove" "app/main.go" libraryFinder).2.







(** The nested project on a run in which every loop over the packages
    meets level3 first *)
Definition nestedWorldLevel3First : World :=
  Posix.worldRanging
    (λ _ key, if decide (key = "testproject/level3") then 0 else 1)
    nestedDisk.

Definition nestedFinder : GoDepFind :=
  (rebuildCache nestedWorld (New "/tmp/nest")).2.

Definition nestedFinderLevel3First : GoDepFind :=
  (rebuildCache nestedWorldLevel3First (New "/tmp/nest")).2.















(** * Properties *)

(** ** The embedding run on the repository's tests

    The answers the tests of the repository expect, computed by the
    embedding in the worlds above. *)

(** TestThisFileIsMine (cache_test.go), with the relative root
    "testproject": each handler owns its own main.go and not the main.go
    of another application; an empty handler path is an error. *)
Example test_ThisFileIsMine :
  let ask handlerFile file :=
    (ThisFileIsMine testprojectWorld handlerFile file "write"
       (New "testproject")).1 in
  ask "appAserver/main.go" "appAserver/main.go" = Ok true
  ∧ ask "appBcmd/main.go" "appBcmd/main.go" = Ok true
  ∧ ask "appCwasm/main.go" "appCwasm/main.go" = Ok true
  ∧ ask "appAserver/main.go" "appBcmd/main.go" = Ok false
  ∧ ask "appBcmd/main.go" "appCwasm/main.go" = Ok false
  ∧ ask "appCwasm/main.go" "appAserver/main.go" = Ok false
  ∧ ask "" "appAserver/main.go"
    = Err "handler mainInputFileRelativePath cannot be empty".
Proof. repeat split; vm_compute; reflexivity. Qed.

(** TestMainFileDifferentiationAcrossApps: module1 is not owned by the
    wasm handler (and is owned by the server handler, which imports it). *)
Example test_MainFileDifferentiationAcrossApps :
  (ThisFileIsMine testprojectWorld "appCwasm/main.go"
     "modules/module1/module1.go" "write" (New "testproject")).1 = Ok false
  ∧ (ThisFileIsMine testprojectWorld "appAserver/main.go"
       "modules/module1/module1.go" "write" (New "testproject")).1 = Ok true.
Proof. split; vm_compute; reflexivity. Qed.

(** TestNestedDependencyOwnership: the handler of cmd/main.go claims
    level4/target.go, four imports away. *)
Example test_NestedDependencyOwnership :
  (ThisFileIsMine nestedWorld "cmd/main.go" "/tmp/nest/level4/target.go"
     "write" (New "/tmp/nest")).1 = Ok true.
Proof. vm_compute. reflexivity. Qed.

(** TestGoHandlerRoutingIssue: the server handler claims database/db.go,
    the wasm handler claims dom/dom.go. *)
Example test_GoHandlerRoutingIssue :
  (ThisFileIsMine routingWorld "pwa/main.server.go" "/tmp/proj/database/db.go"
     "write" (New "/tmp/proj")).1 = Ok true
  ∧ (ThisFileIsMine routingWorld "pwa/main.wasm.go" "/tmp/proj/dom/dom.go"
       "write" (New "/tmp/proj")).1 = Ok true.
Proof. split; vm_compute; reflexivity. Qed.

(** In the routing project the main package of the directory pwa, as
    [go/build] aggregates it, reaches database in the graph; the handler
    of main.wasm.go, of the same directory, does not own database/db.go. *)
Example routing_directory_package_reaches_database :
  cachedMainImportsPackage routingFinder "testproject/pwa"
                           "testproject/database" = true
  ∧ (ThisFileIsMine routingWorld "pwa/main.wasm.go" "/tmp/proj/database/db.go"
       "write" routingFinder).1 = Ok false.
Proof. split; vm_compute; reflexivity. Qed.

(** ** The query terminates *)

Lemma graphNodes_key dg (a : string) deps :
  dg !! a = Some deps → a ∈ graphNodes dg.
Proof.
  intros H. unfold graphNodes. apply elem_of_union_l, elem_of_dom. eauto.
Qed.

Lemma graphNodes_dep dg (a b : string) deps :
  dg !! a = Some deps → b ∈ deps → b ∈ graphNodes dg.
Proof.
  intros H Hb. unfold graphNodes. apply elem_of_union_r.
  apply elem_of_union_list. exists (list_to_set deps). split.
  - apply list_elem_of_fmap. exists (a, deps). split; [done|].
    by apply elem_of_map_to_list.
  - by apply elem_of_list_to_set.
Qed.

Lemma size_unvisited_mono (U v v' : gset string) :
  v ⊆ v' → size (U ∖ v') ≤ size (U ∖ v).
Proof. intros H. apply subseteq_size. set_solver. Qed.

Lemma size_unvisited_mark (U v : gset string) (a : string) :
  a ∈ U → a ∉ v → size (U ∖ ({[a]} ∪ v)) < size (U ∖ v).
Proof.
  intros HU Hv. apply subset_size. split; [set_solver|].
  intros H. assert (a ∈ U ∖ ({[a]} ∪ v)) by set_solver. set_solver.
Qed.

Lemma depsLoop_total call dg targetPkg (n : nat) :
  (∀ dep v, n > size (graphNodes dg ∖ v) →
            ∃ b v', call dep v = Some (b, v') ∧ v ⊆ v') →
  ∀ deps visited,
    n > size (graphNodes dg ∖ visited) →
    ∃ b v', depsLoop call targetPkg deps visited = Some (b, v') ∧ visited ⊆ v'.
Proof.
  intros Hcall deps. induction deps as [|dep rest IH]; intros visited Hn; simpl.
  - by exists false, visited.
  - case_decide; [by exists true, visited|].
    destruct (Hcall dep visited Hn) as (b & v1 & -> & Hsub).
    destruct b; [by exists true, v1|].
    destruct (IH v1) as (b' & v' & -> & Hsub').
    + pose proof (size_unvisited_mono (graphNodes dg) _ _ Hsub). lia.
    + exists b', v'. split; [done|]. set_solver.
Qed.

Lemma cachedImports_total dg targetPkg fuel :
  ∀ path visited,
    fuel > size (graphNodes dg ∖ visited) →
    ∃ b v', cachedImports fuel dg path targetPkg visited = Some (b, v')
            ∧ visited ⊆ v'.
Proof.
  induction fuel as [|fuel IH]; intros path visited Hfuel; [lia|]. simpl.
  case_decide; [by exists false, visited|].
  case_decide; [exists true, ({[path]} ∪ visited); split; [done|set_solver]|].
  destruct (dg !! path) as [deps|] eqn:Hdeps;
    [|exists false, ({[path]} ∪ visited); split; [done|set_solver]].
  pose proof (graphNodes_key _ _ _ Hdeps) as Hnode.
  pose proof (size_unvisited_mark _ _ _ Hnode H) as Hlt.
  destruct (depsLoop_total (λ dep v, cachedImports fuel dg dep targetPkg v)
              dg targetPkg fuel) with (deps := deps)
              (visited := {[path]} ∪ visited) as (b & v' & -> & Hsub).
  - intros dep v Hv. by apply IH.
  - lia.
  - exists b, v'. split; [done|]. set_solver.
Qed.

(** More fuel does not change an answer. *)
Lemma depsLoop_more call call' targetPkg :
  (∀ dep v r, call dep v = Some r → call' dep v = Some r) →
  ∀ deps visited r,
    depsLoop call targetPkg deps visited = Some r →
    depsLoop call' targetPkg deps visited = Some r.
Proof.
  intros Hcall deps. induction deps as [|dep rest IH]; intros visited r; simpl;
    [done|].
  case_decide; [done|].
  destruct (call dep visited) as [[[] v1]|] eqn:Hc; [| |done].
  - rewrite (Hcall _ _ _ Hc). done.
  - rewrite (Hcall _ _ _ Hc). apply IH.
Qed.

Lemma cachedImports_more dg targetPkg fuel fuel' :
  fuel ≤ fuel' →
  ∀ path visited r,
    cachedImports fuel dg path targetPkg visited = Some r →
    cachedImports fuel' dg path targetPkg visited = Some r.
Proof.
  revert fuel'. induction fuel as [|fuel IH]; intros fuel' Hle path visited r;
    [done|].
  destruct fuel' as [|fuel']; [lia|]. simpl.
  case_decide; [done|]. case_decide; [done|].
  destruct (dg !! path) as [deps|]; [|done].
  apply depsLoop_more. intros dep v r'. apply IH. lia.
Qed.

(** ** The query answers reachability *)

Lemma reaches_trans dg a b c :
  reaches dg a b → reaches dg b c → reaches dg a c.
Proof.
  induction 1 as [|a b c' deps Ha Hb _ IH]; [done|].
  intros Hc. eapply reaches_dep; eauto.
Qed.

Lemma depsLoop_sound call dg targetPkg :
  (∀ dep v v', call dep v = Some (true, v') → reaches dg dep targetPkg) →
  ∀ deps visited v',
    depsLoop call targetPkg deps visited = Some (true, v') →
    ∃ dep, dep ∈ deps ∧ reaches dg dep targetPkg.
Proof.
  intros Hcall deps. induction deps as [|dep rest IH]; intros visited v';
    simpl; [done|].
  case_decide as Heq.
  - intros _. exists dep. split; [left|]. subst. constructor.
  - destruct (call dep visited) as [[[] v1]|] eqn:Hc; [| |done].
    + intros _. exists dep. split; [left|]. eauto.
    + intros Hrest. destruct (IH _ _ Hrest) as (d & Hd & Hreach).
      exists d. split; [by right|done].
Qed.

Lemma cachedImports_sound dg targetPkg fuel :
  ∀ path visited v',
    cachedImports fuel dg path targetPkg visited = Some (true, v') →
    reaches dg path targetPkg.
Proof.
  induction fuel as [|fuel IH]; intros path visited v'; simpl; [done|].
  case_decide; [done|].
  case_decide as Heq; [intros _; subst; constructor|].
  destruct (dg !! path) as [deps|] eqn:Hdeps; [|done].
  intros Hloop.
  destruct (depsLoop_sound _ dg targetPkg (λ dep v v', IH dep v v') _ _ _ Hloop)
    as (d & Hd & Hreach).
  eapply reaches_dep; eauto.
Qed.

Lemma settled_trans dg targetPkg (v0 v1 v2 : gset string) :
  settled dg targetPkg v0 v1 → settled dg targetPkg v1 v2 →
  settled dg targetPkg v0 v2.
Proof.
  intros [Hs1 Hc1] [Hs2 Hc2]. split; [set_solver|].
  intros u Hu Hnew. destruct (decide (u ∈ v1)) as [Hin|Hout].
  - destruct (Hc1 u Hin Hnew) as [Hne Hdeps]. split; [done|].
    intros deps d Hl Hd. apply Hs2. eauto.
  - by apply Hc2.
Qed.

Lemma depsLoop_complete call dg targetPkg :
  (∀ dep v v', call dep v = Some (false, v') →
               dep ∈ v' ∧ settled dg targetPkg v v') →
  ∀ deps visited v',
    depsLoop call targetPkg deps visited = Some (false, v') →
    (∀ d, d ∈ deps → d ∈ v') ∧ settled dg targetPkg visited v'.
Proof.
  intros Hcall deps. induction deps as [|dep rest IH]; intros visited v'; simpl.
  - intros [= <-]. split; [by intros d Hd; inversion Hd|].
    split; [done|]. intros u Hu Hnu. done.
  - case_decide; [done|].
    destruct (call dep visited) as [[[] v1]|] eqn:Hc; [done| |done].
    intros Hrest. destruct (Hcall _ _ _ Hc) as [Hdep Hset1].
    destruct (IH _ _ Hrest) as [Hall Hset2].
    split; [|by eapply settled_trans].
    intros d Hd. apply elem_of_cons in Hd as [->|Hd]; [|by apply Hall].
    by apply Hset2.
Qed.

Lemma cachedImports_complete dg targetPkg fuel :
  ∀ path visited v',
    cachedImports fuel dg path targetPkg visited = Some (false, v') →
    path ∈ v' ∧ settled dg targetPkg visited v'.
Proof.
  induction fuel as [|fuel IH]; intros path visited v'; simpl; [done|].
  case_decide as Hvis.
  { intros [= <-]. split; [done|]. split; [done|]. intros u Hu Hnu. done. }
  case_decide as Heq; [done|].
  destruct (dg !! path) as [deps|] eqn:Hdeps.
  - intros Hloop.
    destruct (depsLoop_complete _ dg targetPkg (λ dep v v', IH dep v v')
                _ _ _ Hloop) as [Hall [Hsub Hclosed]].
    split; [set_solver|]. split; [set_solver|].
    intros u Hu Hnu. destruct (decide (u = path)) as [->|Hne].
    + split; [done|]. intros deps' d Hl Hd.
      rewrite Hdeps in Hl. injection Hl as <-. by apply Hall.
    + apply Hclosed; [done|]. set_solver.
  - intros [= <-]. split; [set_solver|]. split; [set_solver|].
    intros u Hu Hnu. assert (u = path) as -> by set_solver.
    split; [done|]. intros deps d Hl. congruence.
Qed.

Lemma settled_from_empty_closed dg targetPkg (v : gset string) a b :
  settled dg targetPkg ∅ v → reaches dg a b → a ∈ v → b ∈ v.
Proof.
  intros [_ Hclosed]. induction 1 as [|a b c deps Ha Hb _ IH]; [done|].
  intros Hin. apply IH.
  destruct (Hclosed a Hin) as [_ Hdeps]; [set_solver|]. eauto.
Qed.

(** A query on an empty [visited] map answers whether the target is
    reachable. *)
Lemma cachedImports_reaches dg fuel path targetPkg b v' :
  cachedImports fuel dg path targetPkg ∅ = Some (b, v') →
  b = true ↔ reaches dg path targetPkg.
Proof.
  intros Hrun. destruct b.
  - split; [|done]. intros _. by eapply cachedImports_sound.
  - split; [done|]. intros Hreach.
    destruct (cachedImports_complete _ _ _ _ _ _ Hrun) as [Hpath Hset].
    pose proof (settled_from_empty_closed _ _ _ _ _ Hset Hreach Hpath) as Hin.
    destruct Hset as [_ Hclosed].
    destruct (Hclosed targetPkg Hin) as [Hne _]; [set_solver|]. done.
Qed.

(** [cachedMainImportsPackage] never runs out of fuel and decides
    reachability. *)
Lemma cachedMainImportsPackage_run g mainPath targetPkg :
  ∃ v', cachedImports (queryFuel (dependencyGraph g)) (dependencyGraph g)
                      mainPath targetPkg ∅
        = Some (cachedMainImportsPackage g mainPath targetPkg, v').
Proof.
  unfold cachedMainImportsPackage.
  destruct (cachedImports_total (dependencyGraph g) targetPkg
              (queryFuel (dependencyGraph g)) mainPath ∅)
    as (b & v' & Hrun & _).
  - unfold queryFuel.
    pose proof (subseteq_size (graphNodes (dependencyGraph g) ∖ ∅)
                  (graphNodes (dependencyGraph g))) as Hle.
    assert (graphNodes (dependencyGraph g) ∖ ∅
            ⊆ graphNodes (dependencyGraph g)) as Hsub by set_solver.
    specialize (Hle Hsub). lia.
  - rewrite Hrun. by exists v'.
Qed.

Lemma cachedMainImportsPackage_reaches g mainPath targetPkg :
  cachedMainImportsPackage g mainPath targetPkg = true
  ↔ reaches (dependencyGraph g) mainPath targetPkg.
Proof.
  destruct (cachedMainImportsPackage_run g mainPath targetPkg) as [v' Hrun].
  by eapply cachedImports_reaches.
Qed.

(** ** Each unit is expanded at most once *)

Lemma depsLoopLog_erase callLog call targetPkg :
  (∀ dep v, eraseLog <$> callLog dep v = call dep v) →
  ∀ deps visited,
    eraseLog <$> depsLoopLog callLog targetPkg deps visited
    = depsLoop call targetPkg deps visited.
Proof.
  intros Hcall deps. induction deps as [|dep rest IH]; intros visited; simpl;
    [done|].
  case_decide; [done|].
  rewrite <- (Hcall dep visited).
  destruct (callLog dep visited) as [[[[] v1] l1]|]; simpl; [done| |done].
  rewrite <- (IH v1).
  by destruct (depsLoopLog callLog targetPkg rest v1) as [[[b v2] l2]|].
Qed.

Lemma cachedImportsLog_erase dg targetPkg fuel :
  ∀ path visited,
    eraseLog <$> cachedImportsLog fuel dg path targetPkg visited
    = cachedImports fuel dg path targetPkg visited.
Proof.
  induction fuel as [|fuel IH]; intros path visited; simpl; [done|].
  case_decide; [done|]. case_decide; [done|].
  destruct (dg !! path) as [deps|]; [|done].
  rewrite <- (depsLoopLog_erase
                (λ dep v, cachedImportsLog fuel dg dep targetPkg v)
                (λ dep v, cachedImports fuel dg dep targetPkg v) targetPkg
                (λ dep v, IH dep v) deps ({[path]} ∪ visited)).
  by destruct (depsLoopLog _ targetPkg deps ({[path]} ∪ visited))
    as [[[b v2] l2]|].
Qed.

Lemma logsMarks_nil (v : gset string) : logsMarks v v [].
Proof.
  split; [done|]. split; [constructor|]. intros x. split.
  - intros Hx. inversion Hx.
  - intros [? ?]. done.
Qed.

Lemma logsMarks_app (v0 v1 v2 : gset string) l1 l2 :
  logsMarks v0 v1 l1 → logsMarks v1 v2 l2 → logsMarks v0 v2 (l1 ++ l2).
Proof.
  intros (Hs1 & Hn1 & Hm1) (Hs2 & Hn2 & Hm2).
  split; [set_solver|]. split.
  - apply NoDup_app. split; [done|]. split; [|done].
    intros x Hx1 Hx2. apply Hm1 in Hx1. apply Hm2 in Hx2. tauto.
  - intros x. rewrite elem_of_app, Hm1, Hm2. split.
    + intros [[? ?]|[? ?]]; split; set_solver.
    + intros [? ?]. destruct (decide (x ∈ v1)); [left|right]; done.
Qed.

Lemma logsMarks_cons (v0 v2 : gset string) (a : string) l :
  a ∉ v0 → logsMarks ({[a]} ∪ v0) v2 l → logsMarks v0 v2 (a :: l).
Proof.
  intros Ha (Hs & Hn & Hm). split; [set_solver|]. split.
  - constructor; [|done]. intros Hin. apply Hm in Hin. set_solver.
  - intros x. rewrite elem_of_cons, Hm. split.
    + intros [->|[? ?]]; split; set_solver.
    + intros [? ?]. destruct (decide (x = a)); [by left|right].
      split; set_solver.
Qed.

Lemma depsLoopLog_marks callLog targetPkg :
  (∀ dep v b v' l, callLog dep v = Some (b, v', l) → logsMarks v v' l) →
  ∀ deps visited b v' l,
    depsLoopLog callLog targetPkg deps visited = Some (b, v', l) →
    logsMarks visited v' l.
Proof.
  intros Hcall deps. induction deps as [|dep rest IH]; intros visited b v' l;
    simpl.
  - intros [= <- <- <-]. apply logsMarks_nil.
  - case_decide; [intros [= <- <- <-]; apply logsMarks_nil|].
    destruct (callLog dep visited) as [[[[] v1] l1]|] eqn:Hc; [| |done].
    + intros [= <- <- <-]. eauto.
    + destruct (depsLoopLog callLog targetPkg rest v1) as [[[b2 v2] l2]|]
        eqn:Hrest; [|done].
      intros [= <- <- <-]. eapply logsMarks_app; eauto.
Qed.

Lemma cachedImportsLog_marks dg targetPkg fuel :
  ∀ path visited b v' l,
    cachedImportsLog fuel dg path targetPkg visited = Some (b, v', l) →
    logsMarks visited v' l.
Proof.
  induction fuel as [|fuel IH]; intros path visited b v' l; simpl; [done|].
  case_decide as Hvis; [intros [= <- <- <-]; apply logsMarks_nil|].
  assert (logsMarks visited ({[path]} ∪ visited) [path]) as Hone.
  { apply logsMarks_cons; [done|]. apply logsMarks_nil. }
  case_decide; [by intros [= <- <- <-]|].
  destruct (dg !! path) as [deps|]; [|by intros [= <- <- <-]].
  destruct (depsLoopLog _ targetPkg deps ({[path]} ∪ visited))
    as [[[b2 v2] l2]|] eqn:Hloop; [|done].
  intros [= <- <- <-]. apply logsMarks_cons; [done|].
  eapply depsLoopLog_marks; [|exact Hloop].
  intros dep v b' v'' l'. apply IH.
Qed.

(** ** Basic facts about the helpers *)

Lemma contains_elem_of slice (item : string) :
  contains slice item = true ↔ item ∈ slice.
Proof.
  induction slice as [|s rest IH]; simpl.
  - split; [done|]. intros H. inversion H.
  - case_decide as Heq.
    + subst. split; [intros _; left|done].
    + rewrite IH. split; [by right|].
      intros H. apply elem_of_cons in H as [->|H]; done.
Qed.

Lemma contains_false slice (item : string) :
  contains slice item = false ↔ item ∉ slice.
Proof.
  rewrite <- contains_elem_of. by destruct (contains slice item).
Qed.

Lemma slicesAt_insert (m : gmap string (list string)) (k k' : string) v :
  slicesAt (<[k := v]> m) k' = if decide (k = k') then v else slicesAt m k'.
Proof. unfold slicesAt. rewrite lookup_insert. by case_decide. Qed.

Lemma slicesAt_lookup (m m' : gmap string (list string)) (k : string) :
  m' !! k = m !! k → slicesAt m' k = slicesAt m k.
Proof. unfold slicesAt. by intros ->. Qed.

Lemma alookup_elem_of {A} (m : list (string * A)) (k : string) (v : A) :
  NoDup (m.*1) → alookup k m = Some v ↔ (k, v) ∈ m.
Proof.
  induction m as [|[k' v'] m IH]; simpl; intros Hnd.
  - split; [done|]. intros H. inversion H.
  - apply NoDup_cons in Hnd as [Hk Hnd]. rewrite elem_of_cons.
    case_decide as Heq.
    + subst. split; [intros [= ->]; by left|].
      intros [[= ->]|Hin]; [done|]. exfalso. apply Hk.
      apply list_elem_of_fmap. by exists (k, v).
    + rewrite (IH Hnd). split; [by right|]. intros [[= -> ->]|Hin]; done.
Qed.

Lemma alookup_None {A} (m : list (string * A)) (k : string) :
  alookup k m = None ↔ k ∉ m.*1.
Proof.
  induction m as [|[k' v'] m IH]; simpl.
  - split; [|done]. intros _ H. inversion H.
  - rewrite not_elem_of_cons. case_decide as Heq.
    + subst. split; [done|]. intros [H _]. done.
    + rewrite IH. naive_solver.
Qed.

Lemma alookup_ainsert {A} (m : list (string * A)) (k k' : string) (v : A) :
  alookup k' (ainsert k v m)
  = if decide (k = k') then Some v else alookup k' m.
Proof.
  induction m as [|[k0 v0] m IH]; simpl.
  - done.
  - destruct (decide (k0 = k)) as [->|Hne]; simpl.
    + by destruct (decide (k = k')).
    + rewrite IH. destruct (decide (k0 = k')) as [->|]; [|done].
      by rewrite decide_False.
Qed.

Lemma ainsert_keys {A} (k : string) (v : A) (m : list (string * A)) :
  NoDup (m.*1) → NoDup ((ainsert k v m).*1) ∧ ∀ x, x ∈ (ainsert k v m).*1 ↔ x = k ∨ x ∈ m.*1.
Proof.
  induction m as [|[k' v'] m IH]; simpl; intros Hnd.
  - split; [repeat constructor; by intros H; inversion H|].
    intros x. rewrite list_elem_of_singleton. split; [by left|].
    intros [->|H]; [done|inversion H].
  - apply NoDup_cons in Hnd as [Hk' Hnd]. case_decide as Heq.
    + subst. simpl. split; [by constructor|].
      intros x. rewrite elem_of_cons. naive_solver.
    + destruct (IH Hnd) as [IH1 IH2]. simpl. split.
      * constructor; [|done]. rewrite IH2. naive_solver.
      * intros x. rewrite !elem_of_cons, IH2. naive_solver.
Qed.

Lemma getPackagesFrom_keys w root paths packages result :
  getPackagesFrom w root paths packages = Ok result →
  NoDup (packages.*1) → NoDup (result.*1).
Proof.
  revert packages. induction paths as [|path rest IH]; intros packages; simpl.
  - by intros [= <-].
  - destruct (importListed w root path) as [pkg|]; [|done].
    intros Hrest Hnd. apply (IH _ Hrest). by apply ainsert_keys.
Qed.

Lemma getPackagesFrom_lookup w root paths packages result :
  getPackagesFrom w root paths packages = Ok result →
  ∀ p, alookup p result
       = if bool_decide (p ∈ paths)
         then match importListed w root p with
              | Ok pkg => Some pkg
              | Err _ => None
              end
         else alookup p packages.
Proof.
  revert packages. induction paths as [|path rest IH]; intros packages; simpl.
  - by intros [= <-].
  - destruct (importListed w root path) as [pkg|] eqn:Himport; [|done].
    intros Hrest p. rewrite (IH _ Hrest p), alookup_ainsert.
    destruct (decide (p ∈ rest)) as [Hin|Hout].
    + rewrite !bool_decide_eq_true_2; [done| |done]. by right.
    + rewrite (bool_decide_eq_false_2 (p ∈ rest)) by done.
      destruct (decide (path = p)) as [->|Hne].
      * rewrite bool_decide_eq_true_2 by left. by rewrite Himport.
      * rewrite bool_decide_eq_false_2; [done|].
        rewrite elem_of_cons. naive_solver.
Qed.

Lemma getPackagesFrom_error w root paths packages e :
  getPackagesFrom w root paths packages = Err e →
  ∃ p, p ∈ paths ∧ importListed w root p = Err e.
Proof.
  revert packages. induction paths as [|path rest IH]; intros packages; simpl;
    [done|].
  destruct (importListed w root path) as [pkg|e'] eqn:Himport.
  - intros Hrest. destruct (IH _ Hrest) as (p & Hp & He).
    exists p. split; [by right|done].
  - intros [= ->]. exists path. split; [left|done].
Qed.

Lemma appendAt_members rd (k v q x : string) :
  x ∈ slicesAt (appendAt rd k v) q ↔ x ∈ slicesAt rd q ∨ (q = k ∧ x = v).
Proof.
  unfold appendAt. rewrite slicesAt_insert. case_decide as Heq.
  - subst. rewrite elem_of_app, list_elem_of_singleton. naive_solver.
  - naive_solver.
Qed.

Lemma addReverseAll_members pkgPath imports rd (q x : string) :
  x ∈ slicesAt (addReverseAll pkgPath imports rd) q
  ↔ x ∈ slicesAt rd q ∨ (x = pkgPath ∧ q ∈ imports).
Proof.
  unfold addReverseAll. revert rd.
  induction imports as [|imp rest IH]; intros rd; simpl.
  - split; [by left|]. intros [H|[_ H]]; [done|inversion H].
  - rewrite IH, appendAt_members, elem_of_cons. naive_solver.
Qed.

(** ** Loops over maps

    Whatever the ranks, a loop visits every entry of the map once. *)

Lemma insertRanked_Permutation {A} rank (entry : string * A) m :
  insertRanked rank entry m ≡ₚ entry :: m.
Proof.
  induction m as [|entry' m IH]; simpl; [done|].
  destruct (Nat.leb _ _); [done|]. rewrite IH. apply Permutation_swap.
Qed.

Lemma rangeOver_Permutation {A} w loop (m : list (string * A)) :
  rangeOver w loop m ≡ₚ m.
Proof.
  unfold rangeOver. induction m as [|entry m IH]; simpl; [done|].
  by rewrite insertRanked_Permutation, IH.
Qed.

Lemma rangeOver_elem_of {A} w loop (m : list (string * A)) entry :
  entry ∈ rangeOver w loop m ↔ entry ∈ m.
Proof. by rewrite rangeOver_Permutation. Qed.

Lemma rangeOver_keys {A} w loop (m : list (string * A)) :
  NoDup (m.*1) → NoDup ((rangeOver w loop m).*1).
Proof. by rewrite rangeOver_Permutation. Qed.

Lemma alookup_rangeOver {A} w loop (m : list (string * A)) (k : string) :
  NoDup (m.*1) → alookup k (rangeOver w loop m) = alookup k m.
Proof.
  intros Hnd. pose proof (rangeOver_keys w loop m Hnd) as Hnd'.
  destruct (alookup k m) as [v|] eqn:Hk.
  - apply alookup_elem_of; [done|]. apply rangeOver_elem_of.
    by apply alookup_elem_of.
  - apply alookup_None. rewrite rangeOver_Permutation. by apply alookup_None.
Qed.

(** In a world that ranks all keys alike, a loop visits the entries in the
    order of the list. *)
Lemma rangeOver_unranked {A} w loop (m : list (string * A)) :
  (∀ k, RangeRank w loop k = 0) → rangeOver w loop m = m.
Proof.
  intros Hrank. unfold rangeOver.
  induction m as [|entry m IH]; simpl; [done|]. rewrite IH.
  destruct m as [|entry' m]; simpl; [done|]. by rewrite !Hrank.
Qed.

(** ** What a scan returns *)

Lemma getPackagesFrom_domain w root paths packages :
  getPackagesFrom w root paths [] = Ok packages →
  ∀ p, p ∈ packages.*1 ↔ p ∈ paths.
Proof.
  intros Hget p.
  pose proof (getPackagesFrom_lookup _ _ _ _ _ Hget p) as Hlookup.
  destruct (decide (p ∈ paths)) as [Hin|Hout].
  - rewrite bool_decide_eq_true_2 in Hlookup by done.
    split; [done|]. intros _. apply dec_stable. intros Hno.
    apply alookup_None in Hno. rewrite Hno in Hlookup.
    destruct (importListed w root p) as [pkg|e] eqn:Himport; [done|].
    clear Hlookup Hno. revert Hget Hin. generalize (@nil (string * Package)).
    induction paths as [|path rest IH]; intros acc Hget Hin; simpl in *.
    { inversion Hin. }
    destruct (importListed w root path) as [pkg|] eqn:Hp; [|done].
    apply elem_of_cons in Hin as [->|Hin]; [congruence|].
    eapply IH; eauto.
  - rewrite bool_decide_eq_false_2 in Hlookup by done. simpl in Hlookup.
    split; [|done]. intros Hkey. exfalso. by apply alookup_None in Hlookup.
Qed.


(** A scan reads the root directory of the finder and nothing else of it. *)
Lemma scans_root w g g0 packages :
  rootDir g0 = rootDir g → scans w g packages → scans w g0 packages.
Proof.
  intros Hroot (allPaths & Hlist & Hget). exists allPaths.
  unfold listPackages, getPackages in *. rewrite Hroot.
  destruct (GoList w (rootDir g) "./...") as [paths err].
  split.
  - destruct (Nat.ltb 0 (length paths)); [by simplify_eq|].
    destruct err; by simplify_eq.
  - injection Hget as Hget. by rewrite Hget.
Qed.

Lemma scans_unique w g packages packages' :
  scans w g packages → scans w g packages' → packages' = packages.
Proof.
  intros (allPaths & Hlist & Hget) (allPaths' & Hlist' & Hget').
  rewrite Hlist in Hlist'. simplify_eq. rewrite Hget in Hget'. by simplify_eq.
Qed.

Lemma rebuildCache_scans w g packages :
  scans w g packages →
  rebuildCache w g
  = (Ok tt, rebuiltFrom w (rootDir g) (testImports g) packages).
Proof.
  intros (allPaths & Hlist & Hget).
  unfold rebuildCache, bind, wrapErr, get, put. by rewrite Hlist, Hget.
Qed.

Lemma rebuildCache_outcome w g :
  match rebuildCache w g with
  | (Ok _, g') =>
      ∃ packages,
        scans w g packages
        ∧ g' = rebuiltFrom w (rootDir g) (testImports g) packages
  | (Err e, g') =>
      g' = g
      ∧ (∀ packages, ¬ scans w g packages)
      ∧ ((∃ e', GoList w (rootDir g) "./..." = ([], Some e')
                ∧ e = wrap "failed to list packages: " e')
         ∨ (∃ p e', p ∈ (GoList w (rootDir g) "./...").1
                    ∧ importListed w (rootDir g) p = Err e'
                    ∧ e = wrap "failed to get packages: " e'))
  end.
Proof.
  unfold rebuildCache, bind, wrapErr, get, put, scans.
  destruct (listPackages w "./..." g) as [[allPaths|e] g1] eqn:Hlist.
  - assert (g1 = g) as ->.
    { unfold listPackages in Hlist.
      destruct (GoList w (rootDir g) "./...") as [paths err].
      destruct (Nat.ltb 0 (length paths)); [by simplify_eq|].
      destruct err; by simplify_eq. }
    assert (allPaths = (GoList w (rootDir g) "./...").1) as Hpaths.
    { unfold listPackages in Hlist.
      destruct (GoList w (rootDir g) "./...") as [paths err].
      destruct (Nat.ltb 0 (length paths)); [by simplify_eq|].
      destruct err; by simplify_eq. }
    unfold getPackages.
    destruct (getPackagesFrom w (rootDir g) allPaths []) as [packages|e]
      eqn:Hget.
    + exists packages. split; [|done]. exists allPaths.
      split; [done|]. by rewrite Hget.
    + split; [done|]. split.
      * intros packages (allPaths' & [= <-] & Hget'). congruence.
      * right. apply getPackagesFrom_error in Hget as (p & Hp & He).
        exists p, e. by rewrite <- Hpaths.
  - unfold listPackages in Hlist.
    destruct (GoList w (rootDir g) "./...") as [paths err].
    destruct (Nat.ltb 0 (length paths)) eqn:Hlen; [done|].
    destruct err as [e'|]; [|done]. simplify_eq.
    split; [done|]. split.
    + by intros packages (allPaths' & [=] & _).
    + left. exists e. split; [|done]. by destruct paths.
Qed.

(** ** What a rebuild leaves

    The loops of steps 3 to 5 of [rebuildCache], for any order of the
    visit, then the maps they leave in the finder. *)

Lemma graphLoop_declared ti visited dg rd (p q : string) :
  NoDup (visited.*1) →
  ((fold_left (graphStep ti) visited (dg, rd)).1 !! p
   = match alookup p visited with
     | Some pkg => Some (Imports pkg)
     | None => dg !! p
     end)
  ∧ (p ∈ slicesAt ((fold_left (graphStep ti) visited (dg, rd)).2) q
     ↔ p ∈ slicesAt rd q
       ∨ ∃ pkg, alookup p visited = Some pkg ∧ q ∈ declaredImports ti pkg).
Proof.
  revert dg rd. induction visited as [|[k pkg] rest IH]; intros dg rd Hnd;
    simpl.
  - split; [done|]. naive_solver.
  - simpl in Hnd. apply NoDup_cons in Hnd as [Hk Hnd].
    apply alookup_None in Hk.
    set (rd' := if ti
                then addReverseAll k (XTestImports pkg)
                       (addReverseAll k (TestImports pkg)
                          (addReverseAll k (Imports pkg) rd))
                else addReverseAll k (Imports pkg) rd).
    destruct (IH (<[k := Imports pkg]> dg) rd' Hnd) as [IH1 IH2].
    assert (∀ x, x ∈ slicesAt rd' q
                 ↔ x ∈ slicesAt rd q ∨ (x = k ∧ q ∈ declaredImports ti pkg))
      as Hrd'.
    { intros x. unfold rd', declaredImports. destruct ti.
      - rewrite !addReverseAll_members, !elem_of_app. naive_solver.
      - by rewrite addReverseAll_members. }
    split.
    + rewrite IH1. case_decide as Heq.
      * subst. rewrite Hk. apply lookup_insert_eq.
      * destruct (alookup p rest); [done|]. by apply lookup_insert_ne.
    + rewrite IH2, Hrd'. case_decide as Heq.
      * subst. rewrite Hk. naive_solver.
      * naive_solver.
Qed.

Lemma indexFiles_app w pkgPath dir files1 files2 acc :
  indexFiles w pkgPath dir (files1 ++ files2) acc
  = indexFiles w pkgPath dir files2 (indexFiles w pkgPath dir files1 acc).
Proof. unfold indexFiles. apply fold_left_app. Qed.

Lemma indexStep_indexedFiles w ti acc pkgPath pkg :
  indexStep w ti acc (pkgPath, pkg)
  = indexFiles w pkgPath (Dir pkg) (indexedFiles ti pkg) acc.
Proof.
  unfold indexStep, indexedFiles. destruct ti; [|done].
  by rewrite !indexFiles_app.
Qed.


Lemma indexFiles_candidates w pkgPath dir files acc (name : string) :
  slicesAt ((indexFiles w pkgPath dir files acc).2) name
  = slicesAt (acc.2) name
    ++ ((λ _, pkgPath) <$> filter (λ file, Base w file = name) files).
Proof.
  unfold indexFiles. revert acc.
  induction files as [|file rest IH]; intros acc; simpl.
  - by rewrite app_nil_r.
  - rewrite IH. cbn [fst snd]. unfold appendAt. rewrite slicesAt_insert.
    rewrite filter_cons. case_decide as Hkey.
    + rewrite Hkey, fmap_cons. by rewrite <- app_assoc.
    + done.
Qed.




Lemma indexLoop_candidates w ti visited acc (name : string) :
  slicesAt ((fold_left (indexStep w ti) visited acc).2) name
  = slicesAt (acc.2) name ++ candidatesIn w ti name visited.
Proof.
  unfold candidatesIn. revert acc.
  induction visited as [|[k pkg] rest IH]; intros acc; cbn [fold_left flat_map].
  - by rewrite app_nil_r.
  - rewrite IH, indexStep_indexedFiles, indexFiles_candidates.
    by rewrite <- app_assoc.
Qed.

Lemma candidatesIn_members w ti visited (name x : string) :
  x ∈ candidatesIn w ti name visited
  ↔ ∃ pkg file, (x, pkg) ∈ visited ∧ file ∈ indexedFiles ti pkg
                ∧ Base w file = name.
Proof.
  unfold candidatesIn. rewrite list_elem_of_In, in_flat_map. split.
  - intros ([k pkg] & Hin & Hx). apply list_elem_of_In in Hin, Hx.
    apply list_elem_of_fmap in Hx as (file & -> & Hfile).
    apply list_elem_of_filter in Hfile as [Hname Hfile].
    by exists pkg, file.
  - intros (pkg & file & Hin & Hfile & Hname). exists (x, pkg).
    split; [by apply list_elem_of_In|]. apply list_elem_of_In.
    apply list_elem_of_fmap. exists file. split; [done|].
    by apply list_elem_of_filter.
Qed.

Lemma rebuiltFrom_graph w root ti packages (p : string) :
  NoDup (packages.*1) →
  dependencyGraph (rebuiltFrom w root ti packages) !! p
  = Imports <$> alookup p packages.
Proof.
  intros Hnd. unfold rebuiltFrom, buildGraph. cbn [dependencyGraph].
  destruct (graphLoop_declared ti (rangeOver w GraphLoop packages) ∅ ∅ p p
              (rangeOver_keys _ _ _ Hnd)) as [-> _].
  rewrite (alookup_rangeOver _ _ _ _ Hnd).
  destruct (alookup p packages); [done|]. apply lookup_empty.
Qed.

Lemma rebuiltFrom_reverse w root ti packages (p q : string) :
  NoDup (packages.*1) →
  p ∈ slicesAt (reverseDeps (rebuiltFrom w root ti packages)) q
  ↔ ∃ pkg, alookup p packages = Some pkg ∧ q ∈ declaredImports ti pkg.
Proof.
  intros Hnd. unfold rebuiltFrom, buildGraph. cbn [reverseDeps].
  destruct (graphLoop_declared ti (rangeOver w GraphLoop packages) ∅ ∅ p q
              (rangeOver_keys _ _ _ Hnd)) as [_ ->].
  rewrite (alookup_rangeOver _ _ _ _ Hnd).
  unfold slicesAt at 1. rewrite lookup_empty. simpl.
  split; [intros [H|H]; [inversion H|done]|by right].
Qed.



(** The by-name index holds, under each base name, the candidates in the
    order in which the loop of step 4 met them. *)
Lemma rebuiltFrom_candidates w root ti packages (name : string) :
  slicesAt (fileToPackages (rebuiltFrom w root ti packages)) name
  = candidatesIn w ti name (rangeOver w IndexLoop packages).
Proof.
  unfold rebuiltFrom, buildIndex. cbn [fileToPackages].
  rewrite indexLoop_candidates. cbn [snd]. unfold slicesAt at 1.
  by rewrite lookup_empty.
Qed.

Lemma rebuiltFrom_names w root ti packages (name p : string) :
  NoDup (packages.*1) →
  p ∈ slicesAt (fileToPackages (rebuiltFrom w root ti packages)) name
  ↔ ∃ pkg file, alookup p packages = Some pkg ∧ file ∈ indexedFiles ti pkg
                ∧ Base w file = name.
Proof.
  intros Hnd. rewrite rebuiltFrom_candidates, candidatesIn_members.
  split; intros (pkg & file & Hin & Hrest); exists pkg, file;
    (split; [|done]).
  - apply alookup_elem_of; [done|]. by apply rangeOver_elem_of in Hin.
  - apply rangeOver_elem_of. by apply alookup_elem_of.
Qed.


Lemma rebuiltFrom_mains_NoDup w root ti packages :
  NoDup (packages.*1) → NoDup (mainPackages (rebuiltFrom w root ti packages)).
Proof.
  intros Hnd. unfold rebuiltFrom, findMains. cbn [mainPackages].
  eapply sublist_NoDup; [exact (rangeOver_keys w MainLoop _ Hnd)|].
  apply fmap_sublist, sublist_filter.
Qed.


Lemma rebuildCache_ok w g g' :
  rebuildCache w g = (Ok tt, g') →
  ∃ packages,
    getPackagesFrom w (rootDir g) (GoList w (rootDir g) "./...").1 []
    = Ok packages
    ∧ g' = rebuiltFrom w (rootDir g) (testImports g) packages.
Proof.
  unfold rebuildCache, bind, wrapErr, listPackages, getPackages, get, put.
  destruct (GoList w (rootDir g) "./...") as [paths err] eqn:Hlist; simpl.
  destruct (Nat.ltb 0 (length paths)) eqn:Hlen.
  - destruct (getPackagesFrom w (rootDir g) paths []) as [packages|e];
      [|done].
    intros [= <-]. by exists packages.
  - destruct err as [e|]; [done|].
    destruct (getPackagesFrom w (rootDir g) paths []) as [packages|e];
      [|done].
    intros [= <-]. by exists packages.
Qed.

Lemma rebuildCache_populated w g g' :
  rebuildCache w g = (Ok tt, g') → cachedModule g' = true.
Proof. intros H. by destruct (rebuildCache_ok _ _ _ H) as (? & _ & ->). Qed.

Lemma ensureCacheInitialized_populated w g g' :
  ensureCacheInitialized w g = (Ok tt, g') → cachedModule g' = true.
Proof.
  unfold ensureCacheInitialized. destruct (cachedModule g) eqn:Hc.
  - by intros [= <-].
  - apply rebuildCache_populated.
Qed.

Lemma ensureCacheInitialized_warm w g :
  cachedModule g = true → ensureCacheInitialized w g = (Ok tt, g).
Proof. unfold ensureCacheInitialized. by intros ->. Qed.

(** ** The steps of [ThisFileIsMine] *)

(** Once steps 1 to 3 pass, the call goes on with the validity check, the
    self-identity match and the package-based check. *)
Lemma ThisFileIsMine_after_validation w g handlerFile file event fileAbsPath :
  reachesValidation w g handlerFile file fileAbsPath →
  ThisFileIsMine w handlerFile file event g
  = match validateTarget w fileAbsPath with
    | Err e => (Err e, g)
    | Ok false => (Ok false, g)
    | Ok true =>
        if decide (Strings.TrimPrefix fileAbsPath (rootDir g +:+ "/")
                   = handlerFile)
        then (run wrapErr "cache update failed: "
                    (updateCacheForFileWithContext w fileAbsPath event
                       handlerFile) in
              ret true) g
        else checkPackageBasedOwnership w handlerFile fileAbsPath g
    end.
Proof.
  intros (Hfile & Hhandler & Habs & Hstat).
  unfold ThisFileIsMine. rewrite !decide_False by done. rewrite Habs.
  unfold statOk in Hstat.
  by destruct (Stat w (handlerAbs w g handlerFile)).
Qed.

(** ** The dependency check of the resolver *)


Lemma findPackageForFile_populated w file g unit g1 :
  findPackageForFile w file g = (Ok unit, g1) → cachedModule g1 = true.
Proof.
  unfold findPackageForFile, bind.
  destruct (ensureCacheInitialized w g) as [[[]|e] g'] eqn:Hinit; [|done].
  apply ensureCacheInitialized_populated in Hinit.
  destruct (filePathToPackage g' !! file); [by intros [= _ <-]|].
  destruct (lookupRelative w g' file); [by intros [= _ <-]|].
  destruct (slicesAt (fileToPackages g') (Base w file));
    by intros [= _ <-].
Qed.


(** ** C7: the transitive-dependency query *)

(** C7.  On every (finite) dependency graph, cyclic or not, a query with
    the fuel [queryFuel] or more returns: it never runs out of fuel, and its
    answer is the one [cachedMainImportsPackage] gives.  The log of the
    units it expands has no repetition: each unit is expanded at most once
    per query.  With edges a -> b and b -> c declared (and whatever other
    edges, an edge c -> a among them), the query from a for c answers
    true. *)
Theorem cachedImports_terminates_and_follows_edges
    (g : GoDepFind) (a b c : string) (depsA depsB : list string) :
  dependencyGraph g !! a = Some depsA → b ∈ depsA →
  dependencyGraph g !! b = Some depsB → c ∈ depsB →
  (∀ path targetPkg fuel,
     queryFuel (dependencyGraph g) ≤ fuel →
     ∃ visited log,
       cachedImportsLog fuel (dependencyGraph g) path targetPkg ∅
       = Some (cachedMainImportsPackage g path targetPkg, visited, log)
       ∧ cachedImports fuel (dependencyGraph g) path targetPkg ∅
         = Some (cachedMainImportsPackage g path targetPkg, visited)
       ∧ NoDup log)
  ∧ cachedMainImportsPackage g a c = true.
Proof.
  intros HA Hb HB Hc. split.
  - intros path targetPkg fuel Hfuel.
    destruct (cachedMainImportsPackage_run g path targetPkg) as [visited Hrun].
    apply (cachedImports_more _ _ _ fuel Hfuel) in Hrun.
    pose proof (cachedImportsLog_erase (dependencyGraph g) targetPkg fuel
                  path ∅) as Herase.
    rewrite Hrun in Herase.
    destruct (cachedImportsLog fuel (dependencyGraph g) path targetPkg ∅)
      as [[[b' v'] log]|] eqn:Hlog; [|done].
    injection Herase as -> ->.
    exists visited, log. split; [done|]. split; [done|].
    by destruct (cachedImportsLog_marks _ _ _ _ _ _ _ _ Hlog) as (_ & Hnd & _).
  - apply cachedMainImportsPackage_reaches.
    eapply reaches_dep; [exact HA|exact Hb|].
    eapply reaches_dep; [exact HB|exact Hc|]. constructor.
Qed.

Lemma cachedImports_terminates_and_follows_edges_witness :
  (∀ path targetPkg fuel,
     queryFuel (dependencyGraph cycleFinder) ≤ fuel →
     ∃ visited log,
       cachedImportsLog fuel (dependencyGraph cycleFinder) path targetPkg ∅
       = Some (cachedMainImportsPackage cycleFinder path targetPkg,
               visited, log)
       ∧ cachedImports fuel (dependencyGraph cycleFinder) path targetPkg ∅
         = Some (cachedMainImportsPackage cycleFinder path targetPkg, visited)
       ∧ NoDup log)
  ∧ cachedMainImportsPackage cycleFinder "a" "c" = true.
Proof.
  apply (cachedImports_terminates_and_follows_edges cycleFinder "a" "b" "c"
           ["b"] ["c"]).
  - vm_compute. reflexivity.
  - left.
  - vm_compute. reflexivity.
  - left.
Defined.

Example cycle_query_terminates_on_absent_target :
  cachedMainImportsPackage cycleFinder "a" "z" = false.
Proof. vm_compute. reflexivity. Qed.

(** ** C1: two entry points of one directory *)




(** ** C9: the by-name fallback of the file index *)

Lemma findPackageForFile_by_name
    (w : World) (g g1 : GoDepFind) (fileAbsPath : string) :
  ensureCacheInitialized w g = (Ok tt, g1) →
  filePathToPackage g1 !! fileAbsPath = None →
  lookupRelative w g1 fileAbsPath = None →
  findPackageForFile w fileAbsPath g
  = (Ok (default "" (slicesAt (fileToPackages g1) (Base w fileAbsPath) !! 0)),
     g1).
Proof.
  intros Hinit Hexact Hrel. unfold findPackageForFile, bind.
  rewrite Hinit, Hexact, Hrel.
  by destruct (slicesAt (fileToPackages g1) (Base w fileAbsPath)).
Qed.

(** C9.  When the cache is populated as [g1], by an earlier call or by this
    one, and both the exact lookup of the absolute path and the
    relative-path fallback miss, [findPackageForFile] returns the first
    candidate recorded under the file's base name,
    [fileToPackages[baseName][0]], when there is one, and the empty string
    otherwise; in both cases without an error.  When it is this call that
    populates the cache, the candidates are the scanned packages with an
    indexed file of that base name, in the order in which the loop of step
    4 of [rebuildCache] met them: the first candidate is the package that
    loop met first, whichever the runtime made it. *)
Theorem findPackageForFile_falls_back_to_first_candidate
    (w : World) (g g1 : GoDepFind) (fileAbsPath : string) :
  ensureCacheInitialized w g = (Ok tt, g1) →
  filePathToPackage g1 !! fileAbsPath = None →
  lookupRelative w g1 fileAbsPath = None →
  findPackageForFile w fileAbsPath g
  = (Ok (default "" (slicesAt (fileToPackages g1) (Base w fileAbsPath) !! 0)),
     g1)
  ∧ (slicesAt (fileToPackages g1) (Base w fileAbsPath) = [] →
     findPackageForFile w fileAbsPath g = (Ok "", g1))
  ∧ (∀ first rest,
       slicesAt (fileToPackages g1) (Base w fileAbsPath) = first :: rest →
       findPackageForFile w fileAbsPath g = (Ok first, g1))
  ∧ (cachedModule g = false →
     ∃ packages,
       scans w g packages
       ∧ packageCache g1 = packages
       ∧ slicesAt (fileToPackages g1) (Base w fileAbsPath)
         = candidatesIn w (testImports g) (Base w fileAbsPath)
                        (rangeOver w IndexLoop packages)).
Proof.
  intros Hinit Hexact Hrel.
  pose proof (findPackageForFile_by_name w g g1 fileAbsPath Hinit Hexact Hrel)
    as Hrun.
  split; [exact Hrun|]. split; [|split].
  - intros Hnone. by rewrite Hrun, Hnone.
  - intros first rest Hsome. by rewrite Hrun, Hsome.
  - intros Hcold. unfold ensureCacheInitialized in Hinit.
    rewrite Hcold in Hinit.
    pose proof (rebuildCache_outcome w g) as Hout. rewrite Hinit in Hout.
    destruct Hout as (packages & Hscan & ->). exists packages.
    split; [done|]. split; [done|]. apply rebuiltFrom_candidates.
Qed.

Lemma findPackageForFile_falls_back_to_first_candidate_witness :
  (slicesAt (fileToPackages nestedFinder) "lib.go"
   = ["testproject/level1"; "testproject/level2"; "testproject/level3"]
   ∧ findPackageForFile nestedWorld "/elsewhere/lib.go" (New "/tmp/nest")
     = (Ok "testproject/level1", nestedFinder))
  ∧ (slicesAt (fileToPackages nestedFinderLevel3First) "lib.go"
     = ["testproject/level3"; "testproject/level1"; "testproject/level2"]
     ∧ findPackageForFile nestedWorldLevel3First "/elsewhere/lib.go"
                          (New "/tmp/nest")
       = (Ok "testproject/level3", nestedFinderLevel3First))
  ∧ findPackageForFile routingWorld "/elsewhere/unknown.go" (New "/tmp/proj")
    = (Ok "", routingFinder).
Proof.
  split; [|split].
  - destruct (findPackageForFile_falls_back_to_first_candidate nestedWorld
                (New "/tmp/nest") nestedFinder "/elsewhere/lib.go")
      as (_ & _ & Hfirst & _); [vm_compute; reflexivity..|].
    split; [vm_compute; reflexivity|].
    apply (Hfirst "testproject/level1"
                  ["testproject/level2"; "testproject/level3"]).
    vm_compute. reflexivity.
  - destruct (findPackageForFile_falls_back_to_first_candidate
                nestedWorldLevel3First (New "/tmp/nest")
                nestedFinderLevel3First "/elsewhere/lib.go")
      as (_ & _ & Hfirst & _); [vm_compute; reflexivity..|].
    split; [vm_compute; reflexivity|].
    apply (Hfirst "testproject/level3"
                  ["testproject/level1"; "testproject/level2"]).
    vm_compute. reflexivity.
  - destruct (findPackageForFile_falls_back_to_first_candidate routingWorld
                (New "/tmp/proj") routingFinder "/elsewhere/unknown.go")
      as (_ & Hnone & _); [vm_compute; reflexivity..|].
    apply Hnone. vm_compute. reflexivity.
Defined.

(** The same tie in a populated cache: the candidate recorded first wins,
    whatever the order of the list says about the packages. *)
Example first_candidate_of_a_populated_cache :
  findPackageForFile nestedWorld "/elsewhere/lib.go" nestedFinderLevel3First
  = (Ok "testproject/level3", nestedFinderLevel3First)
  ∧ findPackageForFile nestedWorldLevel3First "/elsewhere/lib.go" nestedFinder
    = (Ok "testproject/level1", nestedFinder).
Proof. split; vm_compute; reflexivity. Qed.

(** ** C8: soft misses *)








(** ** C10: events the cache update has no case for *)



Lemma ensureCacheInitialized_error w g e g1 :
  ensureCacheInitialized w g = (Err e, g1) →
  g1 = g ∧ cachedModule g = false ∧ ∀ packages, ¬ scans w g packages.
Proof.
  unfold ensureCacheInitialized. destruct (cachedModule g); [done|].
  intros Hrun. pose proof (rebuildCache_outcome w g) as Hout.
  rewrite Hrun in Hout. by destruct Hout as (-> & Hnone & _).
Qed.








Example check_event_on_the_routing_project :
  ThisFileIsMine routingWorld "pwa/main.server.go" "/tmp/proj/database/db.go"
                 "check" routingFinder = (Ok true, routingFinder)
  ∧ ThisFileIsMine routingWorld "pwa/main.server.go"
                   "/tmp/proj/pwa/main.server.go" "check" routingFinder
    = (Ok true, routingFinder)
  ∧ ThisFileIsMine routingWorld "pwa/main.server.go"
                   "/tmp/proj/database/db.go" "check" (New "/tmp/proj")
    = (Ok true, routingFinder).
Proof. repeat split; vm_compute; reflexivity. Qed.

(** ** C2: the handler's own entry-point file *)

(** Against C2 as it is stated: on a cold cache with a [go list] that
    fails, the write of the handler's own entry-point file is answered with
    an error, not with [(true, nil)]; the file's path relative to the root
    is the handler's path. *)
Lemma own_entry_point_write_fails_when_the_rebuild_fails :
  Strings.TrimPrefix "/tmp/proj/pwa/main.server.go"
                     (rootDir (New "/tmp/proj") +:+ "/")
  = "pwa/main.server.go"
  ∧ cachedModule (New "/tmp/proj") = false
  ∧ ThisFileIsMine brokenToolchainWorld "pwa/main.server.go"
                   "/tmp/proj/pwa/main.server.go" "write" (New "/tmp/proj")
    = (Err "cache update failed: failed to list packages: exit status 1",
       New "/tmp/proj").
Proof. repeat split; vm_compute; reflexivity. Qed.

(** While the entry-point file is being saved (truncated to nothing), its
    own handler is answered not-owned. *)
Example own_entry_point_write_while_truncated :
  ThisFileIsMine truncatedWorld "pwa/main.server.go"
                 "/tmp/proj/pwa/main.server.go" "write" routingFinder
  = (Ok false, routingFinder).
Proof. vm_compute. reflexivity. Qed.

(** C2, amended.  When the inputs pass steps 1 to 4 and the changed file's
    path, with the prefix [rootDir/] trimmed, is the handler's path,
    [ThisFileIsMine] with the event write returns [(true, nil)] as soon as
    the cache update of the write succeeds, whatever the cache holds,
    populated or cold; an error of the cache update is returned, wrapped,
    with the answer false. *)
Theorem ThisFileIsMine_owns_its_entry_point_when_the_update_succeeds
    (w : World) (g g' : GoDepFind) (handlerFile file fileAbsPath : string) :
  reachesValidation w g handlerFile file fileAbsPath →
  validateTarget w fileAbsPath = Ok true →
  Strings.TrimPrefix fileAbsPath (rootDir g +:+ "/") = handlerFile →
  (updateCacheForFileWithContext w fileAbsPath "write" handlerFile g
   = (Ok tt, g') →
   ThisFileIsMine w handlerFile file "write" g = (Ok true, g'))
  ∧ (∀ e, updateCacheForFileWithContext w fileAbsPath "write" handlerFile g
          = (Err e, g') →
          ThisFileIsMine w handlerFile file "write" g
          = (Err (wrap "cache update failed: " e), g')).
Proof.
  intros Hinputs Hvalid Hself.
  rewrite (ThisFileIsMine_after_validation _ _ _ _ _ _ Hinputs).
  rewrite Hvalid, decide_True by done.
  unfold bind, wrapErr. split.
  - by intros ->.
  - by intros e ->.
Qed.

Lemma ThisFileIsMine_owns_its_entry_point_when_the_update_succeeds_witness :
  ThisFileIsMine routingWorld "pwa/main.server.go"
                 "/tmp/proj/pwa/main.server.go" "write" (New "/tmp/proj")
  = (Ok true, routingFinder).
Proof.
  assert (reachesValidation routingWorld (New "/tmp/proj") "pwa/main.server.go"
            "/tmp/proj/pwa/main.server.go" "/tmp/proj/pwa/main.server.go")
    as Hinputs by (repeat split; try done; vm_compute; reflexivity).
  destruct (ThisFileIsMine_owns_its_entry_point_when_the_update_succeeds
              routingWorld (New "/tmp/proj") routingFinder "pwa/main.server.go"
              "/tmp/proj/pwa/main.server.go" "/tmp/proj/pwa/main.server.go"
              Hinputs) as [Hsuccess _];
    [vm_compute; reflexivity|vm_compute; reflexivity|].
  apply Hsuccess. vm_compute. reflexivity.
Defined.

(** ** C5: a write of the handler's own entry-point file *)

Lemma isSameFile_root w g g' filePath1 filePath2 :
  rootDir g' = rootDir g →
  isSameFile w g' filePath1 filePath2 = isSameFile w g filePath1 filePath2.
Proof. intros Hroot. unfold isSameFile. by rewrite Hroot. Qed.

(** The write of the entry point is a rebuild, on a populated cache and on
    a cold one: there the rebuild that populates the cache is followed by
    a second one, which gives the same finder. *)
Lemma updateCacheForFileWithContext_write_entry_point w g filePath
    handlerFile :
  handlerFile ≠ "" →
  isSameFile w g filePath handlerFile = true →
  updateCacheForFileWithContext w filePath "write" handlerFile g
  = rebuildCache w g.
Proof.
  intros Hhandler Hsame. unfold updateCacheForFileWithContext, bind.
  unfold ensureCacheInitialized. destruct (cachedModule g) eqn:Hwarm.
  - rewrite decide_True by done.
    by rewrite Hsame, bool_decide_eq_false_2.
  - pose proof (rebuildCache_outcome w g) as Hout.
    destruct (rebuildCache w g) as [[[]|e] g1] eqn:Hrun; [|done].
    destruct Hout as (packages & Hscan & ->).
    rewrite decide_True by done.
    rewrite (isSameFile_root w g) by done.
    rewrite Hsame, bool_decide_eq_false_2 by done. simpl.
    unfold rescanMainPackageDependencies.
    by rewrite (rebuildCache_scans _ _ packages)
      by (by apply (scans_root w g)).
Qed.

Lemma dependencyCheck_populated w g handlerFile file g1 unit imports :
  dependencyCheck w g handlerFile file g1 unit imports →
  cachedModule g1 = true.
Proof.
  intros (fileAbsPath & _ & _ & _ & Hfind & _).
  by eapply findPackageForFile_populated.
Qed.






(** TestDynamicDependencyDetection (dynamic_dependency_test.go): before
    the edit the handler does not own modules/database/db.go; the write of
    the edited appDserver/main.go answers true and rebuilds the cache;
    afterwards the handler owns db.go. *)
Example test_DynamicDependencyDetection :
  ThisFileIsMine worldBeforeEdit "appDserver/main.go"
                 "/tmp/dyn/modules/database/db.go" "create" (New "/tmp/dyn")
  = (Ok false, finderBeforeEdit)
  ∧ ThisFileIsMine worldAfterEdit "appDserver/main.go"
                   "/tmp/dyn/appDserver/main.go" "write" finderBeforeEdit
    = (Ok true, finderAfterEdit)
  ∧ ThisFileIsMine worldAfterEdit "appDserver/main.go"
                   "/tmp/dyn/modules/database/db.go" "write" finderAfterEdit
    = (Ok true, finderAfterEdit).
Proof. repeat split; vm_compute; reflexivity. Qed.

(** ** C6: a write of a file that is not the entry point *)

Lemma removeString_other slice (item x : string) :
  x ≠ item → x ∈ removeString slice item ↔ x ∈ slice.
Proof.
  intros Hne. induction slice as [|s rest IH]; simpl; [done|].
  case_decide as Heq.
  - subst. rewrite elem_of_cons. naive_solver.
  - rewrite !elem_of_cons, IH. done.
Qed.

Lemma removeString_subset slice (item x : string) :
  x ∈ removeString slice item → x ∈ slice.
Proof.
  induction slice as [|s rest IH]; simpl; [done|].
  case_decide; rewrite ?elem_of_cons; naive_solver.
Qed.

Lemma removeString_NoDup slice (item : string) :
  NoDup slice → NoDup (removeString slice item) ∧ item ∉ removeString slice item.
Proof.
  induction 1 as [|s rest Hs Hnd IH]; simpl.
  - split; [constructor|]. intros H. inversion H.
  - case_decide as Heq.
    + subst. done.
    + destruct IH as [IH1 IH2]. split.
      * constructor; [|done]. intros Hin. by apply removeString_subset in Hin.
      * rewrite elem_of_cons. naive_solver.
Qed.

Lemma removeReverseDep_other rd (target dependent k : string) :
  k ≠ target → removeReverseDep rd target dependent !! k = rd !! k.
Proof.
  intros Hne. unfold removeReverseDep.
  destruct (contains _ _); [|done]. by rewrite lookup_insert_ne.
Qed.

Lemma removeReverseDep_at rd (target dependent : string) :
  slicesAt (removeReverseDep rd target dependent) target
  = removeString (slicesAt rd target) dependent.
Proof.
  unfold removeReverseDep.
  destruct (contains (slicesAt rd target) dependent) eqn:Hc.
  - rewrite slicesAt_insert. by rewrite decide_True.
  - apply contains_false in Hc. symmetry.
    induction (slicesAt rd target) as [|s rest IH]; simpl; [done|].
    apply not_elem_of_cons in Hc as [Hne Hrest].
    rewrite decide_False by done. by rewrite IH.
Qed.

Lemma addReverseDep_other rd (target dependent k : string) :
  k ≠ target → addReverseDep rd target dependent !! k = rd !! k.
Proof.
  intros Hne. unfold addReverseDep.
  destruct (contains _ _); [done|]. by rewrite lookup_insert_ne.
Qed.

Lemma addReverseDep_at rd (target dependent x : string) :
  x ∈ slicesAt (addReverseDep rd target dependent) target
  ↔ x = dependent ∨ x ∈ slicesAt rd target.
Proof.
  unfold addReverseDep.
  destruct (contains (slicesAt rd target) dependent) eqn:Hc.
  - apply contains_elem_of in Hc. naive_solver.
  - rewrite slicesAt_insert, decide_True by done.
    rewrite elem_of_app, list_elem_of_singleton. naive_solver.
Qed.

(** The first loop touches the keys that disappeared, and only removes the
    package. *)
Lemma dropReverseEdges_untouched newImports pkgPath oldImports rd (k : string) :
  k ∉ oldImports ∨ k ∈ newImports →
  dropReverseEdges newImports pkgPath oldImports rd !! k = rd !! k.
Proof.
  unfold dropReverseEdges. revert rd.
  induction oldImports as [|imp rest IH]; intros rd Hk; simpl; [done|].
  rewrite IH.
  - destruct (contains newImports imp) eqn:Hc; [done|].
    apply removeReverseDep_other. intros ->.
    apply contains_false in Hc. destruct Hk as [Hk|Hk]; [|done].
    apply Hk. left.
  - destruct Hk as [Hk|Hk]; [left|by right].
    intros Hin. apply Hk. by right.
Qed.

Lemma dropReverseEdges_others newImports pkgPath oldImports rd (k x : string) :
  x ≠ pkgPath →
  x ∈ slicesAt (dropReverseEdges newImports pkgPath oldImports rd) k
  ↔ x ∈ slicesAt rd k.
Proof.
  intros Hne. unfold dropReverseEdges. revert rd.
  induction oldImports as [|imp rest IH]; intros rd; simpl; [done|].
  rewrite IH. destruct (contains newImports imp); [done|].
  destruct (decide (k = imp)) as [->|Hk].
  - rewrite removeReverseDep_at. by apply removeString_other.
  - by rewrite (slicesAt_lookup rd) by by apply removeReverseDep_other.
Qed.

Lemma dropReverseEdges_keeps_out newImports pkgPath oldImports rd (k : string) :
  NoDup (slicesAt rd k) →
  NoDup (slicesAt (dropReverseEdges newImports pkgPath oldImports rd) k)
  ∧ (pkgPath ∉ slicesAt rd k ∨ (k ∈ oldImports ∧ k ∉ newImports) →
     pkgPath ∉ slicesAt (dropReverseEdges newImports pkgPath oldImports rd) k).
Proof.
  unfold dropReverseEdges. revert rd.
  induction oldImports as [|imp rest IH]; intros rd Hnd; simpl.
  - split; [done|]. intros [H|[H _]]; [done|]. inversion H.
  - destruct (contains newImports imp) eqn:Hc.
    + destruct (IH rd Hnd) as [IH1 IH2]. split; [done|].
      intros [H|[H Hnew]]; [by apply IH2; left|].
      apply IH2. right. split; [|done].
      apply elem_of_cons in H as [->|H]; [|done].
      apply contains_elem_of in Hc. done.
    + destruct (decide (k = imp)) as [->|Hk].
      * pose proof (removeString_NoDup _ pkgPath Hnd) as [Hnd' Hout].
        rewrite <- removeReverseDep_at in Hnd', Hout.
        destruct (IH _ Hnd') as [IH1 IH2]. split; [done|].
        intros _. apply IH2. by left.
      * assert (slicesAt (removeReverseDep rd imp pkgPath) k = slicesAt rd k)
          as Hsame by by apply slicesAt_lookup, removeReverseDep_other.
        destruct (IH (removeReverseDep rd imp pkgPath)) as [IH1 IH2];
          [by rewrite Hsame|].
        split; [done|]. rewrite Hsame in IH2.
        intros [H|[H Hnew]]; [by apply IH2; left|].
        apply IH2. right. split; [|done].
        apply elem_of_cons in H as [->|H]; done.
Qed.


Lemma addReverseEdges_members oldImports pkgPath newImports rd (k x : string) :
  x ∈ slicesAt (addReverseEdges oldImports pkgPath newImports rd) k
  ↔ x ∈ slicesAt rd k
    ∨ (x = pkgPath ∧ k ∈ newImports ∧ k ∉ oldImports).
Proof.
  unfold addReverseEdges. revert rd.
  induction newImports as [|imp rest IH]; intros rd; simpl.
  - split; [by left|]. intros [H|(_ & H & _)]; [done|]. inversion H.
  - rewrite IH. destruct (contains oldImports imp) eqn:Hc.
    + apply contains_elem_of in Hc. rewrite elem_of_cons. naive_solver.
    + apply contains_false in Hc. destruct (decide (k = imp)) as [->|Hk].
      * rewrite addReverseDep_at, elem_of_cons. naive_solver.
      * rewrite (slicesAt_lookup rd) by by apply addReverseDep_other.
        rewrite elem_of_cons. naive_solver.
Qed.

Lemma findPackageContainingFileByPath_cached w g filePath absPath unit :
  cachedModule g = true →
  Abs w filePath = Ok absPath →
  ownerIn w CacheLoop (testImports g) (packageCache g) absPath = Some unit →
  findPackageContainingFileByPath w filePath g = (Ok unit, g).
Proof.
  intros Hwarm Habs Howner. unfold findPackageContainingFileByPath, bind.
  by rewrite (ensureCacheInitialized_warm _ _ Hwarm), Habs, Howner.
Qed.

Lemma updateCacheForFileWithContext_write_cached_unit w g filePath handlerFile
    unit newPkg :
  writesCachedUnit w g filePath handlerFile unit newPkg →
  updateCacheForFileWithContext w filePath "write" handlerFile g
  = (Ok tt, refreshed unit newPkg g).
Proof.
  intros (Hwarm & Hother & Hunit & absPath & pkg & Habs & Howner & Hpkg
          & Himport).
  unfold updateCacheForFileWithContext, bind.
  rewrite (ensureCacheInitialized_warm _ _ Hwarm), decide_True by done.
  assert (negb (bool_decide (handlerFile = ""))
          && isSameFile w g filePath handlerFile = false) as ->.
  { destruct Hother as [-> | ->]; [done|]. by rewrite andb_false_r. }
  unfold refreshPackageCache, bind.
  rewrite (findPackageContainingFileByPath_cached _ _ _ _ _ Hwarm Habs Howner).
  rewrite decide_False by done. unfold get.
  unfold importPackageFromDir. by rewrite Hpkg, Himport.
Qed.





(** ** Where the reverse index is kept the transpose of the graph

    [rebuildCache] without test imports establishes the transpose, and the
    refresh of a write event keeps it. *)

Lemma rebuiltFrom_transposed w root packages :
  NoDup (packages.*1) → transposed (rebuiltFrom w root false packages).
Proof.
  intros Hnd p q. rewrite rebuiltFrom_reverse by done.
  unfold slicesAt. rewrite rebuiltFrom_graph by done.
  unfold declaredImports.
  destruct (alookup p packages) as [pkg|]; simpl.
  - split; [by intros (pkg' & [= <-] & H)|]. intros H. by exists pkg.
  - split; [by intros (pkg' & [=] & _)|]. intros H. inversion H.
Qed.

(** After a population without test imports, the reverse index is the
    transpose of the graph. *)
Lemma rebuildCache_transposed w g g' :
  testImports g = false → rebuildCache w g = (Ok tt, g') → transposed g'.
Proof.
  intros Hti Hrun. destruct (rebuildCache_ok _ _ _ Hrun) as (packages & Hget & ->).
  rewrite Hti. apply rebuiltFrom_transposed.
  eapply getPackagesFrom_keys; [exact Hget|constructor].
Qed.

Lemma addReverseEdges_NoDup oldImports pkgPath newImports rd (k : string) :
  NoDup (slicesAt rd k) →
  NoDup (slicesAt (addReverseEdges oldImports pkgPath newImports rd) k).
Proof.
  unfold addReverseEdges. revert rd.
  induction newImports as [|imp rest IH]; intros rd Hnd; simpl; [done|].
  apply IH. destruct (contains oldImports imp); [done|].
  unfold addReverseDep.
  destruct (contains (slicesAt rd imp) pkgPath) eqn:Hc; [done|].
  rewrite slicesAt_insert. case_decide as Heq; [|done]. subst.
  apply contains_false in Hc. apply NoDup_app. split; [done|].
  split; [|repeat constructor; by intros H; inversion H].
  intros x Hx Hx'. apply list_elem_of_singleton in Hx'. by subst.
Qed.

(** The refresh of a write event keeps the transpose, and keeps the lists
    of the reverse index free of repetitions. *)
Lemma refreshed_transposed unit newPkg g :
  transposed g → reverseListsDistinct g →
  transposed (refreshed unit newPkg g)
  ∧ reverseListsDistinct (refreshed unit newPkg g).
Proof.
  intros Htr Hnd.
  set (old := slicesAt (dependencyGraph g) unit).
  set (new := declaredImports (testImports g) newPkg).
  split.
  - intros p q. unfold refreshed. simpl. fold old new.
    rewrite addReverseEdges_members, slicesAt_insert.
    case_decide as Heq.
    + subst p. destruct (decide (q ∈ new)) as [Hnew|Hnew].
      * split; [done|]. intros _. destruct (decide (q ∈ old)) as [Hold|Hold].
        -- left. rewrite (slicesAt_lookup (reverseDeps g))
             by (apply dropReverseEdges_untouched; by right).
           by apply Htr.
        -- by right.
      * split; [|done]. intros [Hin|(_ & Hin & _)]; [|done]. exfalso.
        destruct (dropReverseEdges_keeps_out new unit old (reverseDeps g) q
                    (Hnd q)) as [_ Hout].
        apply Hout; [|done]. destruct (decide (q ∈ old)); [by right|left].
        intros Hrev. by apply Htr in Hrev.
    + rewrite dropReverseEdges_others by done. rewrite (Htr p q). naive_solver.
  - intros q. unfold refreshed. simpl. fold old new.
    apply addReverseEdges_NoDup.
    by destruct (dropReverseEdges_keeps_out new unit old (reverseDeps g) q
                   (Hnd q)).
Qed.

(** A write event, for the handler's entry point or for a file of a cached
    unit, leaves the reverse index the transpose of the graph when test
    imports are off. *)
Lemma write_event_keeps_the_transpose w g g' filePath handlerFile :
  testImports g = false → cachedModule g = true →
  transposed g → reverseListsDistinct g →
  (handlerFile ≠ "" ∧ isSameFile w g filePath handlerFile = true
   ∨ ∃ unit newPkg, writesCachedUnit w g filePath handlerFile unit newPkg) →
  updateCacheForFileWithContext w filePath "write" handlerFile g = (Ok tt, g') →
  transposed g'.
Proof.
  intros Hti Hwarm Htr Hnd [[Hhandler Hsame]|(unit & newPkg & Hwrite)] Hrun.
  - rewrite updateCacheForFileWithContext_write_entry_point in Hrun by done.
    by eapply rebuildCache_transposed.
  - rewrite (updateCacheForFileWithContext_write_cached_unit _ _ _ _ _ _ Hwrite)
      in Hrun.
    injection Hrun as <-. by apply refreshed_transposed.
Qed.

(** ** C3 and C4: what a remove event leaves behind *)

(** C3.  The library project, populated: lib imports old, app imports
    lib, and the reverse index says so.  After the remove event for
    lib/lib.go the forward edges of lib are gone and the reverse index still
    lists lib under old: the reverse index is no longer the transpose of the
    graph.  The create event for the same file has the same effect, and so
    has [ThisFileIsMine] told that the handler's own entry point was
    removed: app stays listed under lib. *)
Theorem remove_event_breaks_the_transpose :
  ("mod/old" ∈ slicesAt (dependencyGraph libraryFinder) "mod/lib"
   ∧ "mod/lib" ∈ slicesAt (reverseDeps libraryFinder) "mod/old")
  ∧ (updateCacheForFileWithContext libraryWorldWithoutLib
       "/tmp/lib/lib/lib.go" "remove" "app/main.go" libraryFinder
     = (Ok tt, finderAfterLibRemove)
     ∧ dependencyGraph finderAfterLibRemove !! "mod/lib" = None
     ∧ reverseDeps finderAfterLibRemove !! "mod/old" = Some ["mod/lib"])
  ∧ (updateCacheForFileWithContext libraryWorldBefore
       "/tmp/lib/lib/lib.go" "create" "app/main.go" libraryFinder
     = (Ok tt, finderAfterLibCreate)
     ∧ dependencyGraph finderAfterLibCreate !! "mod/lib" = None
     ∧ reverseDeps finderAfterLibCreate !! "mod/old" = Some ["mod/lib"])
  ∧ (ThisFileIsMine libraryWorldBefore "app/main.go" "/tmp/lib/app/main.go"
                    "remove" libraryFinder = (Ok true, finderAfterMainRemove)
     ∧ dependencyGraph finderAfterMainRemove !! "mod/app" = None
     ∧ reverseDeps finderAfterMainRemove !! "mod/lib" = Some ["mod/app"]).
Proof.
  split; [split; vm_compute; left|].
  split; [|split]; repeat split; vm_compute; reflexivity.
Qed.

(** C4.  After the remove event that drops the unit lib from the cache,
    the reverse index still names lib as a dependent of old, and the
    transitive query from app for lib still answers true: the forward edge
    app -> lib is left in the graph.  Likewise, after [ThisFileIsMine]
    handled the removal of the entry point of app, the reverse index still
    names app as a dependent of lib. *)
Theorem remove_event_leaves_the_unit_in_the_graph :
  (alookup "mod/lib" (packageCache finderAfterLibRemove) = None
   ∧ dependencyGraph finderAfterLibRemove !! "mod/lib" = None
   ∧ reverseDeps finderAfterLibRemove !! "mod/old" = Some ["mod/lib"]
   ∧ dependencyGraph finderAfterLibRemove !! "mod/app" = Some ["mod/lib"]
   ∧ cachedMainImportsPackage finderAfterLibRemove "mod/app" "mod/lib" = true)
  ∧ (alookup "mod/app" (packageCache finderAfterMainRemove) = None
     ∧ dependencyGraph finderAfterMainRemove !! "mod/app" = None
     ∧ reverseDeps finderAfterMainRemove !! "mod/lib" = Some ["mod/app"]).
Proof. repeat split; vm_compute; reflexivity. Qed.

(** The earlier [invalidatePackageCache] takes lib out of the dependency
    list of app, and leaves it in the reverse index under old as well. *)
Example legacy_remove_event_leaves_the_reverse_entry :
  dependencyGraph legacyFinderAfterLibRemove !! "mod/lib" = None
  ∧ dependencyGraph legacyFinderAfterLibRemove !! "mod/app" = Some []
  ∧ reverseDeps legacyFinderAfterLibRemove !! "mod/old" = Some ["mod/lib"]
  ∧ cachedMainImportsPackage legacyFinderAfterLibRemove "mod/app" "mod/lib"
    = false.
Proof. repeat split; vm_compute; reflexivity. Qed.

(** * Further properties of the package *)

(** ** [getPackages] and [rebuildCache] *)

(** X1.  [getPackages] is all or nothing.  When it succeeds, the map it
    returns has exactly the listed paths as keys, once each, and holds for
    each path the package the import of that path returned; when it fails,
    its error is the error of the import of one of the listed paths, and
    the finder is untouched in both cases. *)
Theorem getPackages_all_or_nothing (w : World) (g : GoDepFind)
    (paths : list string) :
  match getPackages w paths g with
  | (Ok packages, g') =>
      g' = g
      ∧ NoDup (packages.*1)
      ∧ (∀ p, p ∈ packages.*1 ↔ p ∈ paths)
      ∧ (∀ p pkg, alookup p packages = Some pkg →
                  importListed w (rootDir g) p = Ok pkg)
  | (Err e, g') =>
      g' = g ∧ ∃ p, p ∈ paths ∧ importListed w (rootDir g) p = Err e
  end.
Proof.
  unfold getPackages.
  destruct (getPackagesFrom w (rootDir g) paths []) as [packages|e] eqn:Hget.
  - pose proof (getPackagesFrom_lookup _ _ _ _ _ Hget) as Hlookup.
    split; [done|]. split.
    { eapply getPackagesFrom_keys; [exact Hget|constructor]. }
    split.
    + intros p. destruct (decide (p ∈ paths)) as [Hin|Hout].
      * split; [done|]. intros _. apply dec_stable. intros Hno.
        apply alookup_None in Hno. rewrite Hlookup in Hno.
        rewrite bool_decide_eq_true_2 in Hno by done.
        assert (∃ e, importListed w (rootDir g) p = Err e) as [e He].
        { destruct (importListed w (rootDir g) p); [done|by eexists]. }
        clear Hno Hlookup. revert Hget He Hin. generalize (@nil (string * Package)).
        induction paths as [|path rest IH]; intros acc Hget He Hin; simpl in *.
        { inversion Hin. }
        destruct (importListed w (rootDir g) path) as [pkg|] eqn:Hp; [|done].
        apply elem_of_cons in Hin as [->|Hin]; [congruence|].
        eapply IH; eauto.
      * split; [|done]. intros Hkey. exfalso.
        assert (alookup p packages = None) as Hnone.
        { rewrite Hlookup. by rewrite bool_decide_eq_false_2. }
        by apply alookup_None in Hnone.
    + intros p pkg Hp. rewrite Hlookup in Hp.
      destruct (bool_decide (p ∈ paths)); [|done].
      by destruct (importListed w (rootDir g) p) as [pkg'|]; simplify_eq.
  - split; [done|]. by eapply getPackagesFrom_error.
Qed.
